(** * munsell: naming a colour given as a hex code, an RGB triple or an HSL triple

    A shallow embedding of [munsell.go].  Go strings are byte strings and are
    modelled by [string] (a list of 8-bit [ascii]); [uint8] and [uint64] values
    are integers in [Z] with their wrap-around written out; [float64] is the
    kernel's binary64 type [PrimFloat.float]; a Go call that may panic returns
    in the [exec] monad. *)

From Stdlib Require Import ZArith List Bool String Ascii Lia.
From Stdlib Require Import Floats Uint63.
From Stdlib Require Import DecimalString DecimalZ.
Import ListNotations.

Local Open Scope string_scope.
Local Open Scope Z_scope.

(** ** The Go runtime: panics, indexing, slicing *)

Module Go.

(** The two sentinel errors [strconv] wraps in a [*NumError], and the two it
    reports for a bad base or bit size. *)
Inductive strconv_err : Set := ErrSyntax | ErrRange | ErrBase | ErrBitSize.

Record NumError : Set := mkNumError { Func : string; Num : string; Err : strconv_err }.

(** The value of type [error] returned to a caller: [nil], or the error
    built by [fmt.Errorf]. *)
Inductive error : Set :=
| nil
| Errorf (msg : string).

(** What a goroutine panics with: a run-time error, or the value handed to
    [panic]. *)
Inductive panic_value : Set :=
| IndexOutOfRange (i len : nat)
| SliceBoundsOutOfRange (lo hi len : nat)
| PanicError (e : NumError).

Inductive exec (A : Type) : Type :=
| Returns (a : A)
| Panics (p : panic_value).
Arguments Returns {A} a.
Arguments Panics {A} p.

Definition bind {A B : Type} (m : exec A) (k : A -> exec B) : exec B :=
  match m with
  | Returns a => k a
  | Panics p => Panics p
  end.

(** [s[i]] *)
Definition index (s : string) (i : nat) : exec ascii :=
  match String.get i s with
  | Some c => Returns c
  | None => Panics (IndexOutOfRange i (String.length s))
  end.

(** [s[lo:hi]] *)
Definition slice (s : string) (lo hi : nat) : exec string :=
  if (Nat.leb lo hi && Nat.leb hi (String.length s))%bool
  then Returns (String.substring lo (hi - lo) s)
  else Panics (SliceBoundsOutOfRange lo hi (String.length s)).

(** [s[lo:]] *)
Definition slice_from (s : string) (lo : nat) : exec string :=
  slice s lo (String.length s).

End Go.

Import Go.

Notation "x <- m ;; k" := (Go.bind m (fun x => k))
  (at level 61, m at next level, right associativity).

(** ** [strconv.ParseUint] for an explicit base

    The loop of Go's [strconv.ParseUint] for [2 <= base <= 36]; the prefix
    detection of [base == 0] (and the underscores it allows) is left out, the
    program always passes base 16. *)

Module strconv.

Definition maxUint64 : Z := 2 ^ 64 - 1.

Definition byte_of (c : ascii) : Z := Z.of_N (N_of_ascii c).

(** [lower(c) = c | ('x' - 'X')] *)
Definition lower (c : Z) : Z := Z.lor c 32.

(** The digit value of one byte, [None] where the loop's [switch] reaches
    its [default]. *)
Definition digit (c : Z) : option Z :=
  if (48 <=? c) && (c <=? 57) then Some (c - 48)
  else if (97 <=? lower c) && (lower c <=? 122) then Some (lower c - 97 + 10)
  else None.

Definition syntaxError (fn str : string) : NumError := mkNumError fn str ErrSyntax.
Definition rangeError (fn str : string) : NumError := mkNumError fn str ErrRange.
Definition baseError (fn str : string) : NumError := mkNumError fn str ErrBase.
Definition bitSizeError (fn str : string) : NumError := mkNumError fn str ErrBitSize.

Fixpoint ParseUint_loop (s0 : string) (base cutoff maxVal : Z) (s : string) (n : Z)
  : Z * option NumError :=
  match s with
  | EmptyString => (n, None)
  | String c rest =>
      match digit (byte_of c) with
      | None => (0, Some (syntaxError "ParseUint" s0))
      | Some d =>
          if base mod 256 <=? d then (0, Some (syntaxError "ParseUint" s0))
          else if cutoff <=? n then (maxVal, Some (rangeError "ParseUint" s0))
          else
            let n' := (n * base) mod 2 ^ 64 in
            let n1 := (n' + d) mod 2 ^ 64 in
            if (n1 <? n') || (maxVal <? n1) then (maxVal, Some (rangeError "ParseUint" s0))
            else ParseUint_loop s0 base cutoff maxVal rest n1
      end
  end.

Definition ParseUint (s : string) (base bitSize : Z) : Z * option NumError :=
  match s with
  | EmptyString => (0, Some (syntaxError "ParseUint" s))
  | _ =>
      if negb ((2 <=? base) && (base <=? 36)) then (0, Some (baseError "ParseUint" s))
      else if (bitSize <? 0) || (64 <? bitSize) then (0, Some (bitSizeError "ParseUint" s))
      else
        let bitSize := if bitSize =? 0 then 64 else bitSize in
        let cutoff := maxUint64 / base + 1 in
        let maxVal := (2 ^ bitSize - 1) mod 2 ^ 64 in
        ParseUint_loop s base cutoff maxVal s 0
  end.

End strconv.

(** ** The data model *)

Inductive Color : Set :=
| Unknown | White | Black | Red | Orange | Yellow | Green | LightBlue | Blue | Purple.

(** [uint8] fields, each a [Z] in [0, 255]. *)
Record RGBComponents : Set := mkRGB { rgb_Red : Z; rgb_Green : Z; rgb_Blue : Z }.

Definition uint8_range (z : Z) : Prop := 0 <= z < 256.

Definition RGB_wf (rgb : RGBComponents) : Prop :=
  uint8_range (rgb_Red rgb) /\ uint8_range (rgb_Green rgb) /\ uint8_range (rgb_Blue rgb).

(** The conversion [uint8(x)] of a [uint64]. *)
Definition uint8 (x : Z) : Z := x mod 256.

(** ** [getRGBFromHex] *)

Definition getRGBFromHex (hexColor : string) : exec RGBComponents :=
  s <- slice hexColor 0 2 ;;
  let (red, err) := strconv.ParseUint s 16 8 in
  match err with
  | Some e => Panics (PanicError e)
  | None =>
      s <- slice hexColor 2 4 ;;
      let (green, err) := strconv.ParseUint s 16 8 in
      match err with
      | Some e => Panics (PanicError e)
      | None =>
          s <- slice hexColor 4 6 ;;
          let (blue, err) := strconv.ParseUint s 16 8 in
          match err with
          | Some e => Panics (PanicError e)
          | None => Returns (mkRGB (uint8 red) (uint8 green) (uint8 blue))
          end
      end
  end.

(** ** Go's [math] package on [float64]

    [math.Max], [math.Min], [math.Modf] and [math.Floor] as the portable Go
    implementations compute them. *)

Module math.

Local Open Scope float_scope.

Definition float64 : Set := float.

Definition Max (x y : float64) : float64 :=
  if (x =? infinity) || (y =? infinity) then infinity
  else if is_nan x || is_nan y then nan
  else if (x =? 0) && (x =? y) then (if get_sign x then y else x)
  else if y <? x then x else y.

Definition Min (x y : float64) : float64 :=
  if (x =? neg_infinity) || (y =? neg_infinity) then neg_infinity
  else if is_nan x || is_nan y then nan
  else if (x =? 0) && (x =? y) then (if get_sign x then x else y)
  else if x <? y then x else y.

(** The integer part of [f] when [1 <= f] (or [f] is NaN): the bits below
    the binary point are cleared.  With [f = m * 2^(se - 2101)] and the
    53-bit integer mantissa [M = m * 2^53], Go's unbiased exponent is
    [e = se - 2102]; for [e < 52], that is [f < 2^52], the low
    [52 - e = 2154 - se] bits of [M] go, and what is left is the integer
    [M >> (52 - e)].  [Modf] and [Floor] below follow Go's [modf] and [floor];
    the one recursive call of [modf], on [-f] for a negative [f], lands in
    the branch for a non-negative argument, here [Modf_nonneg]. *)
Definition Modf_int (f : float64) : float64 :=
  if f <? 4503599627370496 then
    let (m, se) := frshiftexp f in
    of_uint63 (normfr_mantissa m >> (2154 - se))%uint63
  else f.

Definition Modf_nonneg (f : float64) : float64 * float64 :=
  if f <? 1 then
    if f =? 0 then (f, f) else (0, f)
  else
    let int := Modf_int f in (int, f - int).

Definition Modf (f : float64) : float64 * float64 :=
  if (f <? 1) && (f <? 0) then
    let (int, frac) := Modf_nonneg (- f) in (- int, - frac)
  else Modf_nonneg f.

Definition Floor (x : float64) : float64 :=
  if (x =? 0) || is_nan x || is_infinity x then x
  else if x <? 0 then
    let (d, fract) := Modf (- x) in
    let d := if negb (fract =? 0) then d + 1 else d in
    - d
  else
    let (d, _) := Modf x in d.

End math.

Import math.

Record HSLComponents : Set := mkHSL { Hue : float64; Saturation : float64; Lightness : float64 }.
Arguments mkHSL (Hue Saturation Lightness)%_float.
Arguments Floor x%_float.

(** The conversion [float64(x)] of a [uint8]. *)
Definition float64_of_uint8 (x : Z) : float64 := of_uint63 (Uint63.of_Z x).

(** ** [getHSLFromRGB] *)

Definition getHSLFromRGB (rgb : RGBComponents) : HSLComponents :=
  let r := float64_of_uint8 (rgb_Red rgb) in
  let g := float64_of_uint8 (rgb_Green rgb) in
  let b := float64_of_uint8 (rgb_Blue rgb) in
  let r := (r / 255)%float in
  let g := (g / 255)%float in
  let b := (b / 255)%float in
  let max := Max (Max r g) b in
  let min := Min (Min r g) b in
  let c := (max - min)%float in
  let hue :=
    if (c =? 0)%float then 0%float
    else if (max =? r)%float then
      let segment := ((g - b) / c)%float in
      let shift := if (segment <? 0)%float then 6%float (* 360 / 60 *) else 0%float in
      (segment + shift)%float
    else if (max =? g)%float then
      let segment := ((b - r) / c)%float in
      let shift := 2%float (* 120 / 60 *) in
      (segment + shift)%float
    else if (max =? b)%float then
      let segment := ((r - g) / c)%float in
      let shift := 4%float (* 240 / 60 *) in
      (segment + shift)%float
    else 0%float in
  let hue := (hue * 60)%float in
  mkHSL hue (c * 100)%float ((max + min) * 50)%float.

(** ** [matchColorFromHSL] *)

Definition matchColorFromHSL (hsl : HSLComponents) : Color :=
  let l := Floor (Lightness hsl) in
  let s := Floor (Saturation hsl) in
  let h := Floor (Hue hsl) in
  if ((s <=? 10) && (90 <=? l))%float then White
  else if (l <=? 13)%float then Black
  else if (((s <=? 10) && (l <=? 70)) || (s =? 0))%float then Black (* "Gray" *)
  else if (((0 <=? h) && (h <=? 16)) || (346 <=? h))%float then Red
  else if ((16 <? h) && (h <=? 36))%float then
    if (s <? 90)%float then Orange (* "Brown" *) else Orange
  else if ((36 <? h) && (h <=? 64))%float then
    if (s <? 90)%float then Yellow (* "Brown" *) else Yellow
  else if ((64 <? h) && (h <=? 165))%float then Green
  else if ((165 <? h) && (h <=? 208))%float then LightBlue
  else if ((208 <? h) && (h <=? 260))%float then Blue
  else if ((260 <? h) && (h <=? 290))%float then Purple
  else if ((290 <? h) && (h <=? 345))%float then Purple (* Pink *)
  else Unknown.

(** ** The entry points *)

Definition GetColorFromHSL (hsl : HSLComponents) : Color :=
  let color := matchColorFromHSL hsl in
  color.

Definition GetColorFromRGB (rgb : RGBComponents) : Color :=
  let hsl := getHSLFromRGB rgb in
  let color := matchColorFromHSL hsl in
  color.

Definition invalid_hex (hexColor : string) : error :=
  Errorf ("invalid hex color code: " ++ hexColor).

(** The validator of the source: a stub, called nowhere. *)
Definition ensureHexIsValid (hexColor : string) : bool := true.

Definition GetColorFromHex (hexColor : string) : exec (Color * error) :=
  c0 <- index hexColor 0 ;;
  hexColor <- (if Ascii.eqb c0 "#" then slice_from hexColor 1 else Returns hexColor) ;;
  match String.length hexColor with
  | 3%nat =>
      (* shorthand *)
      a <- slice hexColor 0 1 ;;
      b <- slice hexColor 1 2 ;;
      c <- slice hexColor 2 3 ;;
      rgb <- getRGBFromHex (a ++ a ++ b ++ b ++ c ++ c) ;;
      Returns (GetColorFromRGB rgb, nil)
  | 6%nat =>
      (* standard *)
      rgb <- getRGBFromHex hexColor ;;
      Returns (GetColorFromRGB rgb, nil)
  | 8%nat =>
      (* alpha component *)
      s <- slice hexColor 0 6 ;;
      rgb <- getRGBFromHex s ;;
      Returns (GetColorFromRGB rgb, nil)
  | _ => Returns (Unknown, invalid_hex hexColor)
  end.

(** ** The hex grammar in the specification's words

    A hex digit is one of [0-9], [a-f], [A-F]; a two-digit pair is the byte
    [16 * high + low]; a valid six-digit string decodes to an RGB triple pair
    by pair. *)

Module Spec.

(** The position of a character in a string of digits, counted from [i]. *)
Fixpoint position (c : ascii) (digits : string) (i : Z) : option Z :=
  match digits with
  | EmptyString => None
  | String d rest => if Ascii.eqb c d then Some i else position c rest (i + 1)
  end.

Definition hex_value (c : ascii) : option Z :=
  match position c "0123456789abcdef" 0 with
  | Some v => Some v
  | None => position c "0123456789ABCDEF" 0
  end.

Definition is_hex_digit (c : ascii) : bool :=
  match hex_value c with Some _ => true | None => false end.

Definition hex_byte (hi lo : ascii) : option Z :=
  match hex_value hi, hex_value lo with
  | Some h, Some l => Some (16 * h + l)
  | _, _ => None
  end.

(** The RGB triple of a string of exactly six hex digits. *)
Definition decode6 (s : string) : option RGBComponents :=
  match s with
  | String r1 (String r2 (String g1 (String g2 (String b1 (String b2 EmptyString))))) =>
      match hex_byte r1 r2, hex_byte g1 g2, hex_byte b1 b2 with
      | Some r, Some g, Some b => Some (mkRGB r g b)
      | _, _, _ => None
      end
  | _ => None
  end.

(** Every byte of the string is a hex digit. *)
Fixpoint all_hex (s : string) : bool :=
  match s with
  | EmptyString => true
  | String c rest => is_hex_digit c && all_hex rest
  end.

(** The shorthand expansion: each character doubled. *)
Fixpoint double_each (s : string) : string :=
  match s with
  | EmptyString => EmptyString
  | String c rest => String c (String c (double_each rest))
  end.

(** The digits read from a string of length 3, 6 or 8: all of it, or the
    first six of eight. *)
Definition consumed (s : string) : option string :=
  match String.length s with
  | 3%nat | 6%nat => Some s
  | 8%nat => Some (String.substring 0 6 s)
  | _ => None
  end.

(** The length left once one leading [#] is stripped. *)
Definition stripped_length (s : string) : nat :=
  match s with
  | String "#" rest => String.length rest
  | _ => String.length s
  end.

(** The input once one leading [#] is stripped. *)
Definition strip (s : string) : string :=
  match s with
  | String "#" rest => rest
  | _ => s
  end.

(** The six digits a stripped input stands for: a shorthand doubled, a
    standard string as it is, the first six of eight; nothing for another
    length. *)
Definition six_digits (s : string) : option string :=
  match String.length s with
  | 3%nat => Some (double_each s)
  | 6%nat => Some s
  | 8%nat => Some (String.substring 0 6 s)
  | _ => None
  end.

(** [parseHex] of the specification: strip, pick the six digits, decode. *)
Definition parseHex (s : string) : option RGBComponents :=
  match six_digits (strip s) with
  | Some digits => decode6 digits
  | None => None
  end.

(** ASCII lower case: [A-Z] to [a-z], every other byte kept. *)
Definition to_lower (c : ascii) : ascii :=
  let n := N_of_ascii c in
  if ((65 <=? n) && (n <=? 90))%N then ascii_of_N (n + 32) else c.

Fixpoint lowercase (s : string) : string :=
  match s with
  | EmptyString => EmptyString
  | String c rest => String (to_lower c) (lowercase rest)
  end.

End Spec.

(** ** Checking every RGB triple

    The 256 channel values once divided by 255, and a boolean check of the
    hue of every triple of them.  On these values [math.Max] and [math.Min]
    are the plain comparisons [cmp_max] and [cmp_min] (no infinity, no NaN,
    no negative zero), which is itself checked on every pair. *)

Module Sweep.

Local Open Scope float_scope.

Definition channel (n : nat) : float64 := float64_of_uint8 (Z.of_nat n) / 255.

Definition channels : list float64 := Eval vm_compute in map channel (seq 0 256).

Definition cmp_max (x y : float64) : float64 := if y <? x then x else y.
Definition cmp_min (x y : float64) : float64 := if x <? y then x else y.

Definition max_min_agree (x y : float64) : bool :=
  Leibniz.eqb (Max x y) (cmp_max x y) && Leibniz.eqb (Min x y) (cmp_min x y).

(** The hue [getHSLFromRGB] computes from the normalised channels, their
    maximum and their minimum. *)
Definition hue_of (max min r g b : float64) : float64 :=
  let c := max - min in
  let hue :=
    if c =? 0 then 0
    else if max =? r then
      let segment := (g - b) / c in
      let shift := if segment <? 0 then 6 else 0 in
      segment + shift
    else if max =? g then
      let segment := (b - r) / c in
      let shift := 2 in
      segment + shift
    else if max =? b then
      let segment := (r - g) / c in
      let shift := 4 in
      segment + shift
    else 0 in
  hue * 60.

(** A floored hue that some rule among 4 to 11 matches: not negative, and
    not strictly between 345 and 346. *)
Definition matched (h : float64) : bool :=
  (0 <=? h) && ((h <=? 345) || (346 <=? h)).

Definition hue_ok (hue : float64) : bool :=
  (0 <=? hue) && (hue <? 360) && matched (Floor hue).

(** The check of the triple [(r, g, b)], given the maximum [m1] and the
    minimum [m2] of [r] and [g]. *)
Definition triple_ok (r g m1 m2 b : float64) : bool :=
  hue_ok (hue_of (cmp_max m1 b) (cmp_min m2 b) r g b).

End Sweep.

(** The [switch] of [GetColorFromHex], on the string left once a leading
    [#] is gone. *)
Definition switch_on_length (hexColor : string) : exec (Color * error) :=
  match String.length hexColor with
  | 3%nat =>
      a <- slice hexColor 0 1 ;;
      b <- slice hexColor 1 2 ;;
      c <- slice hexColor 2 3 ;;
      rgb <- getRGBFromHex (a ++ a ++ b ++ b ++ c ++ c) ;;
      Returns (GetColorFromRGB rgb, nil)
  | 6%nat =>
      rgb <- getRGBFromHex hexColor ;;
      Returns (GetColorFromRGB rgb, nil)
  | 8%nat =>
      s <- slice hexColor 0 6 ;;
      rgb <- getRGBFromHex s ;;
      Returns (GetColorFromRGB rgb, nil)
  | _ => Returns (Unknown, invalid_hex hexColor)
  end.

(** What [getRGBFromHex] does on six characters: the decoded triple, or the
    panic of the first pair that is not two hex digits. *)
Definition six_chars (r1 r2 g1 g2 b1 b2 : ascii) : exec RGBComponents :=
  let bad (x y : ascii) : exec RGBComponents :=
    Panics (PanicError (strconv.syntaxError "ParseUint" (String x (String y "")))) in
  match Spec.hex_byte r1 r2 with
  | None => bad r1 r2
  | Some r =>
      match Spec.hex_byte g1 g2 with
      | None => bad g1 g2
      | Some g =>
          match Spec.hex_byte b1 b2 with
          | None => bad b1 b2
          | Some b => Returns (mkRGB r g b)
          end
      end
  end.

(** Rules 1 to 3 of [matchColorFromHSL], which look at saturation and
    lightness only and answer White or Black. *)
Definition white_or_black (hsl : HSLComponents) : bool :=
  let l := Floor (Lightness hsl) in
  let s := Floor (Saturation hsl) in
  (((s <=? 10) && (90 <=? l))
   || (l <=? 13)
   || (((s <=? 10) && (l <=? 70)) || (s =? 0)))%float.

(** Rules 4 to 11 and the default, on the floored saturation and hue. *)
Definition by_hue (s h : float64) : Color :=
  if (((0 <=? h) && (h <=? 16)) || (346 <=? h))%float then Red
  else if ((16 <? h) && (h <=? 36))%float then
    if (s <? 90)%float then Orange else Orange
  else if ((36 <? h) && (h <=? 64))%float then
    if (s <? 90)%float then Yellow else Yellow
  else if ((64 <? h) && (h <=? 165))%float then Green
  else if ((165 <? h) && (h <=? 208))%float then LightBlue
  else if ((208 <? h) && (h <=? 260))%float then Blue
  else if ((260 <? h) && (h <=? 290))%float then Purple
  else if ((290 <? h) && (h <=? 345))%float then Purple
  else Unknown.

(** The hue range [0, 360) the specification expects. *)
Definition hue_in_range (hue : float64) : bool := ((0 <=? hue) && (hue <? 360))%float.
Arguments hue_in_range hue%_float.

(** ** [Color] as the [int] it is, and its [String] method *)

(** The value [iota] gives each constant. *)
Definition Color_value (c : Color) : Z :=
  match c with
  | Unknown => 0 | White => 1 | Black => 2 | Red => 3 | Orange => 4
  | Yellow => 5 | Green => 6 | LightBlue => 7 | Blue => 8 | Purple => 9
  end.

Definition colors : list string :=
  ["Unknown"; "White"; "Black"; "Red"; "Orange"; "Yellow"; "Green"; "Light Blue"; "Blue";
   "Purple"].

(** [a[i]] on an array of strings, with the run-time bounds check (a negative
    index is reported as 0 in the panic value). *)
Definition array_index (a : list string) (i : Z) : exec string :=
  if (0 <=? i) && (i <? Z.of_nat (List.length a))
  then Returns (nth (Z.to_nat i) a "")
  else Panics (IndexOutOfRange (Z.to_nat i) (List.length a)).

(** [fmt.Sprintf("Color(%d)", n)] *)
Definition Sprintf_Color (n : Z) : string :=
  "Color(" ++ NilZero.string_of_int (Z.to_int n) ++ ")".

(** The method [String] on a [Color] of any integer value. *)
Definition Color_String (c : Z) : exec string :=
  if (c <? Color_value Unknown) || (Color_value Purple <? c)
  then Returns (Sprintf_Color c)
  else array_index colors c.

Definition Color_eqb (c1 c2 : Color) : bool := Color_value c1 =? Color_value c2.

(** ** Tables and checks for the properties of the conversion *)

Module Table.

Local Open Scope float_scope.

(** The colour of a grey [(v, v, v)]. *)
Definition grey (v : Z) : Color := if (230 <=? v)%Z then White else Black.

(** The colour of an integral hue, by the thresholds of rules 4 to 11. *)
Definition hue_name (n : Z) : Color :=
  if ((n <=? 16) || (346 <=? n))%Z then Red
  else if (n <=? 36)%Z then Orange
  else if (n <=? 64)%Z then Yellow
  else if (n <=? 165)%Z then Green
  else if (n <=? 208)%Z then LightBlue
  else if (n <=? 260)%Z then Blue
  else Purple.

(** The [float64] of an integer number of degrees. *)
Definition degree (n : Z) : float64 := of_uint63 (Uint63.of_Z n).

Definition bytes : list Z := map Z.of_nat (seq 0 256).

Definition degrees : list Z := map Z.of_nat (seq 0 360).

(** The channels of the values 0 to 50, and of the values 230 to 255. *)
Definition dark : list float64 := Eval vm_compute in map Sweep.channel (seq 0 51).
Definition bright : list float64 := Eval vm_compute in map Sweep.channel (seq 230 26).

(** The minimum and the maximum of two channels bracket both. *)
Definition bracketed (x y : float64) : bool :=
  (Sweep.cmp_min x y <=? x) && (Sweep.cmp_min x y <=? y)
  && (x <=? Sweep.cmp_max x y) && (y <=? Sweep.cmp_max x y).

(** Saturation and lightness computed from a maximum and a minimum. *)
Definition saturation_of (max min : float64) : float64 := (max - min) * 100.
Definition lightness_of (max min : float64) : float64 := (max + min) * 50.

Definition percent (x : float64) : bool := (0 <=? x) && (x <=? 100).

Definition percents_ok (max min : float64) : bool :=
  implb (min <=? max) (percent (saturation_of max min) && percent (lightness_of max min)).

(** Floored saturation and lightness on which rule 1 does not match and
    rule 2 or rule 3 does. *)
Definition rules_say_black (s l : float64) : bool :=
  negb ((s <=? 10) && (90 <=? l))
  && ((l <=? 13) || (((s <=? 10) && (l <=? 70)) || (s =? 0))).

Definition dark_ok (max min : float64) : bool :=
  rules_say_black (Floor (saturation_of max min)) (Floor (lightness_of max min)).

Definition bright_ok (max min : float64) : bool :=
  (Floor (saturation_of max min) <=? 10) && (90 <=? Floor (lightness_of max min)).

End Table.

(** * Properties *)

(** ** Strings, slices and hex digits *)

Lemma substring_all (s : string) : String.substring 0 (String.length s) s = s.
Proof.
  induction s as [| c s IH]; simpl; [reflexivity | now rewrite IH].
Qed.

Lemma substring_0_0 (s : string) : String.substring 0 0 s = "".
Proof. now destruct s. Qed.

Lemma slice_from_1 (c : ascii) (s : string) : slice_from (String c s) 1 = Returns s.
Proof.
  unfold slice_from, slice.
  change (String.length (String c s)) with (S (String.length s)).
  rewrite Nat.leb_refl.
  change (Nat.leb 1 (S (String.length s))) with true.
  cbn [andb Nat.sub String.substring].
  now rewrite Nat.sub_0_r, substring_all.
Qed.

(** The digits [strconv] accepts in base 16 are the specification's hex
    digits, with the same values. *)
Lemma digit_hex_value (c : ascii) :
  match Spec.hex_value c with
  | Some v => strconv.digit (strconv.byte_of c) = Some v /\ 0 <= v < 16
  | None =>
      match strconv.digit (strconv.byte_of c) with
      | Some d => 16 <= d
      | None => True
      end
  end.
Proof.
  destruct c as [[] [] [] [] [] [] [] []]; vm_compute; intuition congruence.
Qed.

Lemma hex_digit_not_hash (c : ascii) :
  Spec.is_hex_digit c = true -> Ascii.eqb c "#" = false.
Proof.
  destruct c as [[] [] [] [] [] [] [] []]; vm_compute; congruence.
Qed.

(** ** [strconv.ParseUint] on two characters *)

Section ParseUintLoop.

Variables (s0 rest : string) (c : ascii) (n : Z).

Lemma ParseUint_loop_digit (d : Z) :
  strconv.digit (strconv.byte_of c) = Some d ->
  0 <= d < 16 -> 0 <= n -> 16 * n + d <= 255 ->
  strconv.ParseUint_loop s0 16 (2 ^ 60) 255 (String c rest) n
  = strconv.ParseUint_loop s0 16 (2 ^ 60) 255 rest (16 * n + d).
Proof.
  intros Hd Hrange Hn Hsum.
  cbn [strconv.ParseUint_loop]. rewrite Hd.
  change (16 mod 256) with 16.
  destruct (Z.leb_spec 16 d) as [Hbad | _]; [lia |].
  destruct (Z.leb_spec (2 ^ 60) n) as [Hbad | _]; [lia |].
  cbv zeta.
  rewrite (Z.mod_small (n * 16)) by lia.
  rewrite (Z.mod_small (n * 16 + d)) by lia.
  destruct (Z.ltb_spec (n * 16 + d) (n * 16)) as [Hbad | _]; [lia |].
  destruct (Z.ltb_spec 255 (n * 16 + d)) as [Hbad | _]; [lia |].
  cbn [orb]. f_equal. lia.
Qed.

Lemma ParseUint_loop_not_digit :
  match strconv.digit (strconv.byte_of c) with
  | Some d => 16 <= d
  | None => True
  end ->
  strconv.ParseUint_loop s0 16 (2 ^ 60) 255 (String c rest) n
  = (0, Some (strconv.syntaxError "ParseUint" s0)).
Proof.
  intros Hd. cbn [strconv.ParseUint_loop].
  destruct (strconv.digit (strconv.byte_of c)) as [d |]; [| reflexivity].
  change (16 mod 256) with 16.
  destruct (Z.leb_spec 16 d) as [_ | Hbad]; [reflexivity | lia].
Qed.

End ParseUintLoop.

Lemma ParseUint_pair_unfold (a b : ascii) :
  strconv.ParseUint (String a (String b "")) 16 8 =
  strconv.ParseUint_loop (String a (String b "")) 16 (2 ^ 60) 255 (String a (String b "")) 0.
Proof. reflexivity. Qed.

(** On a two-character string, base 16 and 8 bits, [ParseUint] returns the
    byte the specification decodes, and a syntax error exactly when one of
    the two characters is not a hex digit. *)
Lemma ParseUint_pair (a b : ascii) :
  strconv.ParseUint (String a (String b "")) 16 8 =
  match Spec.hex_byte a b with
  | Some v => (v, None)
  | None => (0, Some (strconv.syntaxError "ParseUint" (String a (String b ""))))
  end.
Proof.
  rewrite ParseUint_pair_unfold. unfold Spec.hex_byte.
  pose proof (digit_hex_value a) as Ha. pose proof (digit_hex_value b) as Hb.
  destruct (Spec.hex_value a) as [va |].
  - destruct Ha as [Ha Hra].
    rewrite (ParseUint_loop_digit _ _ _ _ va Ha) by lia.
    destruct (Spec.hex_value b) as [vb |].
    + destruct Hb as [Hb Hrb].
      rewrite (ParseUint_loop_digit _ _ _ _ vb Hb) by lia.
      cbn [strconv.ParseUint_loop]. f_equal; lia.
    + now apply ParseUint_loop_not_digit.
  - now apply ParseUint_loop_not_digit.
Qed.

Lemma hex_byte_range (a b : ascii) (v : Z) :
  Spec.hex_byte a b = Some v -> 0 <= v < 256.
Proof.
  unfold Spec.hex_byte.
  pose proof (digit_hex_value a) as Ha. pose proof (digit_hex_value b) as Hb.
  destruct (Spec.hex_value a) as [va |], (Spec.hex_value b) as [vb |]; try discriminate.
  intros [= Hv]. change (16 * va + vb = v) in Hv.
  destruct Ha as [_ Ha], Hb as [_ Hb]. lia.
Qed.

(** ** [getRGBFromHex] and the [switch] of [GetColorFromHex] *)

Lemma getRGBFromHex_six (r1 r2 g1 g2 b1 b2 : ascii) (tail : string) :
  getRGBFromHex (String r1 (String r2 (String g1 (String g2 (String b1 (String b2 tail))))))
  = six_chars r1 r2 g1 g2 b1 b2.
Proof.
  unfold getRGBFromHex, six_chars, slice.
  change (String.length (String r1 (String r2 (String g1 (String g2 (String b1 (String b2 tail)))))))
    with (6 + String.length tail)%nat.
  cbn [Nat.leb Nat.add andb Nat.sub String.substring bind].
  rewrite !substring_0_0, !ParseUint_pair.
  destruct (Spec.hex_byte r1 r2) as [r |] eqn:Hr; [| reflexivity].
  destruct (Spec.hex_byte g1 g2) as [g |] eqn:Hg; [| reflexivity].
  destruct (Spec.hex_byte b1 b2) as [b |] eqn:Hb; [| reflexivity].
  unfold uint8.
  rewrite !Z.mod_small by (eapply hex_byte_range; eassumption).
  reflexivity.
Qed.

Lemma GetColorFromHex_unfold (hexColor : string) :
  GetColorFromHex hexColor =
  (c0 <- index hexColor 0 ;;
   hexColor <- (if Ascii.eqb c0 "#" then slice_from hexColor 1 else Returns hexColor) ;;
   switch_on_length hexColor).
Proof. reflexivity. Qed.

(** A leading [#] is stripped. *)
Lemma GetColorFromHex_hash (s : string) :
  GetColorFromHex (String "#" s) = switch_on_length s.
Proof.
  rewrite GetColorFromHex_unfold.
  change (index (String "#" s) 0) with (Returns "#"%char).
  cbn [bind]. change (Ascii.eqb "#" "#") with true. cbv iota.
  now rewrite slice_from_1.
Qed.

(** Any other first byte is kept. *)
Lemma GetColorFromHex_no_hash (c : ascii) (s : string) :
  Ascii.eqb c "#" = false ->
  GetColorFromHex (String c s) = switch_on_length (String c s).
Proof.
  intros Hc. rewrite GetColorFromHex_unfold.
  change (index (String c s) 0) with (Returns c).
  cbn [bind]. now rewrite Hc.
Qed.

Lemma switch_six (r1 r2 g1 g2 b1 b2 : ascii) :
  switch_on_length (String r1 (String r2 (String g1 (String g2 (String b1 (String b2 ""))))))
  = (rgb <- six_chars r1 r2 g1 g2 b1 b2 ;; Returns (GetColorFromRGB rgb, nil)).
Proof.
  unfold switch_on_length. cbn [String.length]. now rewrite getRGBFromHex_six.
Qed.

Lemma switch_three (a b c : ascii) :
  switch_on_length (String a (String b (String c "")))
  = (rgb <- six_chars a a b b c c ;; Returns (GetColorFromRGB rgb, nil)).
Proof.
  unfold switch_on_length. cbn [String.length].
  change (slice (String a (String b (String c ""))) 0 1) with (Returns (String a "")).
  change (slice (String a (String b (String c ""))) 1 2) with (Returns (String b "")).
  change (slice (String a (String b (String c ""))) 2 3) with (Returns (String c "")).
  cbn [bind String.append]. now rewrite getRGBFromHex_six.
Qed.

Lemma switch_eight (r1 r2 g1 g2 b1 b2 a1 a2 : ascii) :
  switch_on_length
    (String r1 (String r2 (String g1 (String g2 (String b1 (String b2 (String a1 (String a2 ""))))))))
  = (rgb <- six_chars r1 r2 g1 g2 b1 b2 ;; Returns (GetColorFromRGB rgb, nil)).
Proof.
  unfold switch_on_length. cbn [String.length].
  change (slice (String r1 (String r2 (String g1 (String g2 (String b1 (String b2
            (String a1 (String a2 "")))))))) 0 6)
    with (Returns (String r1 (String r2 (String g1 (String g2 (String b1 (String b2 ""))))))).
  cbn [bind]. now rewrite getRGBFromHex_six.
Qed.

Lemma hex_byte_first_digit (a b : ascii) (v : Z) :
  Spec.hex_byte a b = Some v -> Spec.is_hex_digit a = true.
Proof.
  unfold Spec.hex_byte, Spec.is_hex_digit.
  now destruct (Spec.hex_value a).
Qed.

(** A valid six-digit string is six characters on which [getRGBFromHex]
    returns the decoded triple, and it does not start with [#]. *)
Lemma decode6_inv (s : string) (rgb : RGBComponents) :
  Spec.decode6 s = Some rgb ->
  exists r1 r2 g1 g2 b1 b2,
    s = String r1 (String r2 (String g1 (String g2 (String b1 (String b2 "")))))
    /\ six_chars r1 r2 g1 g2 b1 b2 = Returns rgb
    /\ Ascii.eqb r1 "#" = false.
Proof.
  destruct s as [| r1 [| r2 [| g1 [| g2 [| b1 [| b2 [| x s]]]]]]]; try discriminate.
  cbn [Spec.decode6].
  destruct (Spec.hex_byte r1 r2) as [r |] eqn:Hr; [| discriminate].
  destruct (Spec.hex_byte g1 g2) as [g |] eqn:Hg; [| discriminate].
  destruct (Spec.hex_byte b1 b2) as [b |] eqn:Hb; [| discriminate].
  intros [= <-]. exists r1, r2, g1, g2, b1, b2.
  split; [reflexivity | split].
  - unfold six_chars. now rewrite Hr, Hg, Hb.
  - apply hex_digit_not_hash. eapply hex_byte_first_digit; eassumption.
Qed.

Lemma stripped_length_cons (c : ascii) (s : string) :
  Spec.stripped_length (String c s) =
  if Ascii.eqb c "#" then String.length s else S (String.length s).
Proof.
  destruct c as [[] [] [] [] [] [] [] []]; reflexivity.
Qed.

Lemma switch_other_length (s : string) :
  String.length s <> 3%nat -> String.length s <> 6%nat -> String.length s <> 8%nat ->
  switch_on_length s = Returns (Unknown, invalid_hex s).
Proof.
  unfold switch_on_length.
  destruct (String.length s) as [| [| [| [| [| [| [| [| [| n]]]]]]]]];
    intros H3 H6 H8; try reflexivity; congruence.
Qed.

(** Every non-empty input of another length is answered with [Unknown] and
    the error naming the stripped input. *)
Lemma GetColorFromHex_other_length (s : string) :
  s <> "" ->
  Spec.stripped_length s <> 3%nat ->
  Spec.stripped_length s <> 6%nat ->
  Spec.stripped_length s <> 8%nat ->
  exists stripped,
    (s = stripped \/ s = String "#" stripped)
    /\ GetColorFromHex s = Returns (Unknown, invalid_hex stripped).
Proof.
  destruct s as [| c s]; [congruence |]. intros _.
  rewrite stripped_length_cons.
  destruct (Ascii.eqb c "#") eqn:Hc; intros H3 H6 H8.
  - apply Ascii.eqb_eq in Hc. subst c. exists s. split; [now right |].
    rewrite GetColorFromHex_hash. now apply switch_other_length.
  - exists (String c s). split; [now left |].
    rewrite GetColorFromHex_no_hash by assumption. now apply switch_other_length.
Qed.

(** Six characters that are not all hex digits: one of the pairs is the
    argument of a [panic]. *)
Lemma six_chars_bad_digit (r1 r2 g1 g2 b1 b2 : ascii) :
  Spec.all_hex (String r1 (String r2 (String g1 (String g2 (String b1 (String b2 "")))))) = false ->
  exists e, six_chars r1 r2 g1 g2 b1 b2 = Panics (PanicError e).
Proof.
  cbn [Spec.all_hex]. unfold six_chars, Spec.hex_byte, Spec.is_hex_digit.
  destruct (Spec.hex_value r1), (Spec.hex_value r2), (Spec.hex_value g1),
    (Spec.hex_value g2), (Spec.hex_value b1), (Spec.hex_value b2);
    cbn [andb]; intros H; try discriminate H; eexists; reflexivity.
Qed.

(** Six hex digits: the decoded triple is returned. *)
Lemma six_chars_all_hex (r1 r2 g1 g2 b1 b2 : ascii) :
  Spec.all_hex (String r1 (String r2 (String g1 (String g2 (String b1 (String b2 "")))))) = true ->
  exists rgb, six_chars r1 r2 g1 g2 b1 b2 = Returns rgb.
Proof.
  cbn [Spec.all_hex]. unfold six_chars, Spec.hex_byte, Spec.is_hex_digit.
  destruct (Spec.hex_value r1), (Spec.hex_value r2), (Spec.hex_value g1),
    (Spec.hex_value g2), (Spec.hex_value b1), (Spec.hex_value b2);
    cbn [andb]; intros H; try discriminate H; eexists; reflexivity.
Qed.

Lemma switch_bad_digit (s digits : string) :
  Spec.consumed s = Some digits -> Spec.all_hex digits = false ->
  exists e, switch_on_length s = Panics (PanicError e).
Proof.
  unfold Spec.consumed.
  destruct s as [| c1 [| c2 [| c3 [| c4 [| c5 [| c6 [| c7 [| c8 [| c9 s]]]]]]]]];
    cbn [String.length String.substring]; try discriminate; intros [= <-] Hbad.
  - assert (H : Spec.all_hex (String c1 (String c1 (String c2 (String c2 (String c3 (String c3 ""))))))
                = false).
    { cbn [Spec.all_hex] in Hbad |- *.
      destruct (Spec.is_hex_digit c1), (Spec.is_hex_digit c2), (Spec.is_hex_digit c3);
        try reflexivity; discriminate Hbad. }
    destruct (six_chars_bad_digit _ _ _ _ _ _ H) as [e He].
    exists e. now rewrite switch_three, He.
  - destruct (six_chars_bad_digit _ _ _ _ _ _ Hbad) as [e He].
    exists e. now rewrite switch_six, He.
  - destruct (six_chars_bad_digit _ _ _ _ _ _ Hbad) as [e He].
    exists e. now rewrite switch_eight, He.
Qed.

(** Whatever the length class, a non-hex-digit among the digits read makes
    [GetColorFromHex] panic with the [*NumError] of [strconv.ParseUint]. *)
Lemma GetColorFromHex_bad_digit_panics (s digits : string) :
  Spec.consumed s = Some digits -> Spec.all_hex digits = false ->
  exists e, GetColorFromHex (String "#" s) = Panics (PanicError e).
Proof.
  intros Hs Hbad. rewrite GetColorFromHex_hash. eapply switch_bad_digit; eassumption.
Qed.

(** ** Hex input *)

(** C1. A non-hex-digit among the digits read should yield an InvalidFormat
    error value and never end the process.  The code does not: on
    ["#gg0000"] the [*NumError] of [strconv.ParseUint] is handed to [panic]
    and no error value is returned. *)
Theorem GetColorFromHex_bad_digit :
  GetColorFromHex "#gg0000"
  = Panics (PanicError (mkNumError "ParseUint" "gg" ErrSyntax)).
Proof. vm_compute. reflexivity. Qed.

(** C2. An input whose stripped length is not 3, 6 or 8, the empty string
    included, should yield Unknown with an InvalidFormat error and never
    crash.  On the empty string the code indexes [hexColor[0]] and panics
    with an index out of range. *)
Theorem GetColorFromHex_empty :
  Spec.stripped_length "" = 0%nat
  /\ GetColorFromHex "" = Panics (IndexOutOfRange 0 0).
Proof. split; reflexivity. Qed.

(** C4. On a valid six-digit hex string, with or without the leading [#],
    [GetColorFromHex] returns, with a nil error, the Color [GetColorFromRGB]
    gives for the triple decoded pair by pair. *)
Theorem GetColorFromHex_six_digits (s : string) (rgb : RGBComponents) :
  Spec.decode6 s = Some rgb ->
  GetColorFromHex s = Returns (GetColorFromRGB rgb, nil)
  /\ GetColorFromHex (String "#" s) = Returns (GetColorFromRGB rgb, nil).
Proof.
  intros H. destruct (decode6_inv s rgb H) as (r1 & r2 & g1 & g2 & b1 & b2 & -> & Hsix & Hhash).
  split.
  - rewrite GetColorFromHex_no_hash by assumption. now rewrite switch_six, Hsix.
  - now rewrite GetColorFromHex_hash, switch_six, Hsix.
Qed.

Lemma GetColorFromHex_six_digits_witness :
  Spec.decode6 "1e90ff" = Some (mkRGB 30 144 255)
  /\ GetColorFromHex "1e90ff" = Returns (GetColorFromRGB (mkRGB 30 144 255), nil)
  /\ GetColorFromHex "#1e90ff" = Returns (GetColorFromRGB (mkRGB 30 144 255), nil).
Proof.
  split; [reflexivity |].
  apply (GetColorFromHex_six_digits "1e90ff" (mkRGB 30 144 255)). reflexivity.
Defined.

(** C5. On a three-character hex string, with or without the leading [#],
    [GetColorFromHex] returns exactly what it returns on the six-character
    string with each character doubled: the same Color and the same (nil)
    error. *)
Theorem GetColorFromHex_shorthand (s : string) :
  String.length s = 3%nat -> Spec.all_hex s = true ->
  GetColorFromHex s = GetColorFromHex (Spec.double_each s)
  /\ GetColorFromHex (String "#" s) = GetColorFromHex (String "#" (Spec.double_each s))
  /\ exists color,
       GetColorFromHex s = Returns (color, nil)
       /\ GetColorFromHex (String "#" s) = Returns (color, nil).
Proof.
  destruct s as [| a [| b [| c [| x s]]]]; try discriminate. intros _.
  cbn [Spec.all_hex Spec.double_each]. intros H.
  assert (Hsix : exists rgb, six_chars a a b b c c = Returns rgb).
  { apply six_chars_all_hex. cbn [Spec.all_hex].
    destruct (Spec.is_hex_digit a), (Spec.is_hex_digit b), (Spec.is_hex_digit c);
      try reflexivity; discriminate H. }
  destruct Hsix as [rgb Hsix].
  apply andb_prop in H as [Ha _].
  pose proof (hex_digit_not_hash a Ha) as Hhash.
  rewrite !GetColorFromHex_no_hash by assumption.
  rewrite !GetColorFromHex_hash, switch_three, switch_six, Hsix.
  repeat split. exists (GetColorFromRGB rgb). now split.
Qed.

Lemma GetColorFromHex_shorthand_witness :
  GetColorFromHex "0f0" = GetColorFromHex "00ff00"
  /\ GetColorFromHex "#0f0" = GetColorFromHex "#00ff00"
  /\ exists color,
       GetColorFromHex "0f0" = Returns (color, nil)
       /\ GetColorFromHex "#0f0" = Returns (color, nil).
Proof.
  apply (GetColorFromHex_shorthand "0f0"); reflexivity.
Defined.

(** C6. On an eight-digit hex string, with or without the leading [#],
    [GetColorFromHex] returns exactly what it returns on the first six
    digits, a Color and a nil error: the alpha byte is dropped. *)
Theorem GetColorFromHex_alpha_dropped (s : string) :
  String.length s = 8%nat -> Spec.all_hex s = true ->
  GetColorFromHex s = GetColorFromHex (String.substring 0 6 s)
  /\ GetColorFromHex (String "#" s) = GetColorFromHex (String "#" (String.substring 0 6 s))
  /\ exists color,
       GetColorFromHex s = Returns (color, nil)
       /\ GetColorFromHex (String "#" s) = Returns (color, nil).
Proof.
  destruct s as [| r1 [| r2 [| g1 [| g2 [| b1 [| b2 [| a1 [| a2 [| x s]]]]]]]]]; try discriminate.
  intros _. cbn [Spec.all_hex String.substring]. intros H.
  assert (Hsix : exists rgb, six_chars r1 r2 g1 g2 b1 b2 = Returns rgb).
  { apply six_chars_all_hex. cbn [Spec.all_hex].
    destruct (Spec.is_hex_digit r1), (Spec.is_hex_digit r2), (Spec.is_hex_digit g1),
      (Spec.is_hex_digit g2), (Spec.is_hex_digit b1), (Spec.is_hex_digit b2);
      try reflexivity; discriminate H. }
  destruct Hsix as [rgb Hsix].
  apply andb_prop in H as [Hr1 _].
  pose proof (hex_digit_not_hash r1 Hr1) as Hhash.
  rewrite !GetColorFromHex_no_hash by assumption.
  rewrite !GetColorFromHex_hash, switch_eight, switch_six, Hsix.
  repeat split. exists (GetColorFromRGB rgb). now split.
Qed.

Lemma GetColorFromHex_alpha_dropped_witness :
  GetColorFromHex "00ff0080" = GetColorFromHex "00ff00"
  /\ GetColorFromHex "#00ff0080" = GetColorFromHex "#00ff00"
  /\ exists color,
       GetColorFromHex "00ff0080" = Returns (color, nil)
       /\ GetColorFromHex "#00ff0080" = Returns (color, nil).
Proof.
  apply (GetColorFromHex_alpha_dropped "00ff0080"); reflexivity.
Defined.

(** C10. On eight characters whose first six are hex digits, with or without
    the leading [#], [GetColorFromHex] returns the Color of the decoded
    triple and a nil error whatever the last two bytes are. *)
Theorem GetColorFromHex_alpha_unchecked (s : string) (rgb : RGBComponents) (x y : ascii) :
  Spec.decode6 s = Some rgb ->
  GetColorFromHex (s ++ String x (String y "")) = Returns (GetColorFromRGB rgb, nil)
  /\ GetColorFromHex (String "#" (s ++ String x (String y ""))) = Returns (GetColorFromRGB rgb, nil).
Proof.
  intros H. destruct (decode6_inv s rgb H) as (r1 & r2 & g1 & g2 & b1 & b2 & -> & Hsix & Hhash).
  cbn [String.append]. split.
  - rewrite GetColorFromHex_no_hash by assumption. now rewrite switch_eight, Hsix.
  - now rewrite GetColorFromHex_hash, switch_eight, Hsix.
Qed.

Lemma GetColorFromHex_alpha_unchecked_witness :
  Spec.decode6 "00ff00" = Some (mkRGB 0 255 0)
  /\ GetColorFromHex "00ff00zz" = Returns (GetColorFromRGB (mkRGB 0 255 0), nil)
  /\ GetColorFromHex "#00ff00zz" = Returns (GetColorFromRGB (mkRGB 0 255 0), nil).
Proof.
  split; [reflexivity |].
  apply (GetColorFromHex_alpha_unchecked "00ff00" (mkRGB 0 255 0) "z" "z"). reflexivity.
Defined.

(** ** Comparisons of [float64] values

    The primitive comparisons are those of [SFcompare] on the values'
    specification. *)

Section FloatOrder.

Local Open Scope float_scope.

Lemma SFcompare_antisym (x y : spec_float) :
  SFcompare y x = option_map CompOpp (SFcompare x y).
Proof.
  destruct x as [sx | sx | | sx mx ex], y as [sy | sy | | sy my ey];
    try destruct sx; try destruct sy; try reflexivity.
  all: cbn [SFcompare option_map]; f_equal.
  all: assert (Hm : Pos.compare_cont Eq my mx = CompOpp (Pos.compare_cont Eq mx my))
    by (symmetry; apply (Pos.compare_cont_antisym mx my Eq)).
  all: rewrite Hm, (Z.compare_antisym ex ey).
  all: destruct (ex ?= ey)%Z; cbn [CompOpp];
    try reflexivity; now destruct (Pos.compare_cont Eq mx my).
Qed.

Lemma SFcompare_None (x y : spec_float) :
  SFcompare x y = None -> x = S754_nan \/ y = S754_nan.
Proof.
  destruct x, y; cbn [SFcompare]; try discriminate; auto.
Qed.

Lemma SFcompare_nan_r (x : spec_float) : SFcompare x S754_nan = None.
Proof. now destruct x. Qed.

(** Two numbers are ordered one way or the other: when [x] is not a NaN
    (it is above some [z]) and [y] is not a NaN (it equals itself), [x <= y]
    fails only if [y < x]. *)
Lemma ltb_of_leb_false (x y z : float64) :
  (z <=? x) = true -> (y =? y) = true -> (x <=? y) = false -> (y <? x) = true.
Proof.
  rewrite !FloatAxioms.leb_spec, FloatAxioms.eqb_spec, FloatAxioms.ltb_spec.
  unfold SFleb, SFeqb, SFltb. rewrite (SFcompare_antisym (Prim2SF x) (Prim2SF y)).
  intros Hz Hy Hxy.
  destruct (SFcompare (Prim2SF x) (Prim2SF y)) as [c |] eqn:E.
  - destruct c; cbn [option_map CompOpp]; congruence.
  - exfalso. apply SFcompare_None in E as [E | E]; rewrite E in *.
    + rewrite SFcompare_nan_r in Hz. discriminate.
    + discriminate.
Qed.

Lemma Prim2SF_zero : Prim2SF 0 = S754_zero false.
Proof. reflexivity. Qed.

(** Nothing that is at least zero lies below or at a negative number or a
    NaN. *)
Lemma not_above_when_negative (h c : float64) :
  (0 <=? h) = false -> (0 <=? c) = true -> (c <=? h) = false /\ (c <? h) = false.
Proof.
  rewrite !FloatAxioms.leb_spec, FloatAxioms.ltb_spec, Prim2SF_zero. unfold SFleb, SFltb.
  destruct (Prim2SF h) as [sh | sh | | sh mh eh], (Prim2SF c) as [sc | sc | | sc mc ec];
    try destruct sh; try destruct sc; cbn [SFcompare]; try discriminate; now split.
Qed.

End FloatOrder.

(** ** The rules of [matchColorFromHSL] *)

Section Rules.

Local Open Scope float_scope.

Lemma matchColorFromHSL_white_or_black (hsl : HSLComponents) :
  white_or_black hsl = true ->
  matchColorFromHSL hsl = White \/ matchColorFromHSL hsl = Black.
Proof.
  unfold white_or_black, matchColorFromHSL. cbv zeta.
  destruct ((Floor (Saturation hsl) <=? 10) && (90 <=? Floor (Lightness hsl)));
    [now left |].
  destruct (Floor (Lightness hsl) <=? 13); [now right |].
  destruct (((Floor (Saturation hsl) <=? 10) && (Floor (Lightness hsl) <=? 70))
            || (Floor (Saturation hsl) =? 0)); [now right | discriminate].
Qed.

(** When rules 1 to 3 do not match, the floored hue decides. *)
Lemma matchColorFromHSL_by_hue (hsl : HSLComponents) :
  white_or_black hsl = false ->
  matchColorFromHSL hsl = by_hue (Floor (Saturation hsl)) (Floor (Hue hsl)).
Proof.
  unfold white_or_black, matchColorFromHSL. cbv zeta.
  destruct ((Floor (Saturation hsl) <=? 10) && (90 <=? Floor (Lightness hsl)));
    [discriminate |].
  destruct (Floor (Lightness hsl) <=? 13); [discriminate |].
  destruct (((Floor (Saturation hsl) <=? 10) && (Floor (Lightness hsl) <=? 70))
            || (Floor (Saturation hsl) =? 0)); [discriminate | reflexivity].
Qed.

Variables s h : float64.

Lemma by_hue_from_346 : (346 <=? h) = true -> by_hue s h = Red.
Proof.
  intros H. unfold by_hue. now rewrite H, orb_true_r.
Qed.

(** A floored hue that is negative or a NaN matches no rule. *)
Lemma by_hue_below_zero : (0 <=? h) = false -> by_hue s h = Unknown.
Proof.
  intros H. unfold by_hue. rewrite H.
  destruct (not_above_when_negative h 346 H eq_refl) as [-> _].
  destruct (not_above_when_negative h 16 H eq_refl) as [_ ->].
  destruct (not_above_when_negative h 36 H eq_refl) as [_ ->].
  destruct (not_above_when_negative h 64 H eq_refl) as [_ ->].
  destruct (not_above_when_negative h 165 H eq_refl) as [_ ->].
  destruct (not_above_when_negative h 208 H eq_refl) as [_ ->].
  destruct (not_above_when_negative h 260 H eq_refl) as [_ ->].
  destruct (not_above_when_negative h 290 H eq_refl) as [_ ->].
  reflexivity.
Qed.

(** A floored hue that is not negative and not strictly between 345 and
    346 matches one of rules 4 to 11. *)
Lemma by_hue_matched : Sweep.matched h = true -> by_hue s h <> Unknown.
Proof.
  unfold Sweep.matched. intros H. apply andb_prop in H as [H0 Hend].
  pose proof (fun c Hc => ltb_of_leb_false h c 0 H0 Hc) as Hlt.
  unfold by_hue. rewrite H0. cbn [andb].
  destruct (h <=? 16) eqn:E16; [discriminate |].
  destruct (346 <=? h) eqn:E346; [discriminate |]. cbn [orb].
  rewrite (Hlt 16 eq_refl E16). cbn [andb].
  destruct (h <=? 36) eqn:E36; [now destruct (s <? 90) |].
  rewrite (Hlt 36 eq_refl E36). cbn [andb].
  destruct (h <=? 64) eqn:E64; [now destruct (s <? 90) |].
  rewrite (Hlt 64 eq_refl E64). cbn [andb].
  destruct (h <=? 165) eqn:E165; [discriminate |].
  rewrite (Hlt 165 eq_refl E165). cbn [andb].
  destruct (h <=? 208) eqn:E208; [discriminate |].
  rewrite (Hlt 208 eq_refl E208). cbn [andb].
  destruct (h <=? 260) eqn:E260; [discriminate |].
  rewrite (Hlt 260 eq_refl E260). cbn [andb].
  destruct (h <=? 290) eqn:E290; [discriminate |].
  rewrite (Hlt 290 eq_refl E290). cbn [andb].
  destruct (h <=? 345) eqn:E345; [discriminate |].
  discriminate Hend.
Qed.

End Rules.

Lemma matchColorFromHSL_matched (hsl : HSLComponents) :
  Sweep.matched (Floor (Hue hsl)) = true -> matchColorFromHSL hsl <> Unknown.
Proof.
  intros H. destruct (white_or_black hsl) eqn:Hwb.
  - destruct (matchColorFromHSL_white_or_black hsl Hwb) as [-> | ->]; discriminate.
  - rewrite matchColorFromHSL_by_hue by assumption. now apply by_hue_matched.
Qed.

(** ** The conversion and the classifier *)

(** C7. The anchors of the conversion: black is hue 0, saturation 0,
    lightness 0 and is classified Black; white is saturation 0, lightness 100
    and is classified White; pure red is hue 0, saturation 100, lightness 50
    and is classified Red. *)
Theorem conversion_anchors :
  (getHSLFromRGB (mkRGB 0 0 0) = mkHSL 0 0 0
   /\ matchColorFromHSL (getHSLFromRGB (mkRGB 0 0 0)) = Black)
  /\ (Saturation (getHSLFromRGB (mkRGB 255 255 255)) = 0%float
      /\ Lightness (getHSLFromRGB (mkRGB 255 255 255)) = 100%float
      /\ matchColorFromHSL (getHSLFromRGB (mkRGB 255 255 255)) = White)
  /\ (getHSLFromRGB (mkRGB 255 0 0) = mkHSL 0 100 50
      /\ matchColorFromHSL (getHSLFromRGB (mkRGB 255 0 0)) = Red).
Proof. vm_compute. repeat split. Qed.

(** C8. When saturation and lightness trigger none of the White and Black
    rules, a floored hue of exactly 16 is Red, of exactly 17 Orange, of
    exactly 346 Red and of exactly 345 Purple. *)
Theorem hue_boundaries (hsl : HSLComponents) :
  white_or_black hsl = false ->
  (Floor (Hue hsl) = 16%float -> matchColorFromHSL hsl = Red)
  /\ (Floor (Hue hsl) = 17%float -> matchColorFromHSL hsl = Orange)
  /\ (Floor (Hue hsl) = 346%float -> matchColorFromHSL hsl = Red)
  /\ (Floor (Hue hsl) = 345%float -> matchColorFromHSL hsl = Purple).
Proof.
  intros Hwb. rewrite (matchColorFromHSL_by_hue hsl Hwb).
  repeat split; intros ->; unfold by_hue; cbn [andb orb];
    try reflexivity.
  change ((if (Floor (Saturation hsl) <? 90)%float then Orange else Orange) = Orange).
  now destruct (Floor (Saturation hsl) <? 90)%float.
Qed.

Lemma hue_boundaries_witness :
  white_or_black (mkHSL 16.5 100 50) = false
  /\ Floor 16.5 = 16%float
  /\ matchColorFromHSL (mkHSL 16.5 100 50) = Red.
Proof.
  split; [reflexivity | split; [reflexivity |]].
  apply (proj1 (hue_boundaries (mkHSL 16.5 100 50) eq_refl)). reflexivity.
Defined.

(** C9, as stated: outside [0, 360) the classification would fall to Unknown.
    A hue of 400 with saturation 100 and lightness 50 is outside the range,
    past the White and Black rules, and classified Red. *)
Lemma hue_400_is_Red :
  hue_in_range 400 = false
  /\ white_or_black (mkHSL 400 100 50) = false
  /\ GetColorFromHSL (mkHSL 400 100 50) = Red
  /\ GetColorFromHSL (mkHSL 400 100 50) <> Unknown.
Proof. repeat split. discriminate. Qed.

(** C9, amended.  [GetColorFromHSL] returns a Color on every HSL triple.
    When saturation and lightness trigger none of the White and Black rules,
    a floored hue of 346 or more (400 say) is Red, and a floored hue that is
    negative or a NaN is Unknown. *)
Theorem GetColorFromHSL_outside_range (hsl : HSLComponents) :
  (exists color, GetColorFromHSL hsl = color)
  /\ (white_or_black hsl = false ->
      ((346 <=? Floor (Hue hsl))%float = true -> GetColorFromHSL hsl = Red)
      /\ ((0 <=? Floor (Hue hsl))%float = false -> GetColorFromHSL hsl = Unknown)).
Proof.
  split; [eexists; reflexivity |].
  intros Hwb. unfold GetColorFromHSL. cbv zeta.
  rewrite (matchColorFromHSL_by_hue hsl Hwb). split.
  - apply by_hue_from_346.
  - apply by_hue_below_zero.
Qed.

Lemma GetColorFromHSL_outside_range_witness :
  (white_or_black (mkHSL 400 100 50) = false
   /\ (346 <=? Floor 400)%float = true
   /\ GetColorFromHSL (mkHSL 400 100 50) = Red)
  /\ (white_or_black (mkHSL (-10) 100 50) = false
      /\ (0 <=? Floor (-10))%float = false
      /\ GetColorFromHSL (mkHSL (-10) 100 50) = Unknown).
Proof.
  split; (split; [reflexivity | split; [reflexivity |]]).
  - apply (proj1 (proj2 (GetColorFromHSL_outside_range (mkHSL 400 100 50)) eq_refl)).
    reflexivity.
  - apply (proj2 (proj2 (GetColorFromHSL_outside_range (mkHSL (-10) 100 50)) eq_refl)).
    reflexivity.
Defined.

(** ** Every RGB triple *)

Section AllTriples.

Local Open Scope float_scope.

Lemma channels_eq : Sweep.channels = map Sweep.channel (seq 0 256).
Proof. vm_compute. reflexivity. Qed.

(** A normalised [uint8] channel is one of the 256 [channels]. *)
Lemma channel_In (z : Z) :
  uint8_range z -> In (float64_of_uint8 z / 255) Sweep.channels.
Proof.
  unfold uint8_range. intros Hz. rewrite channels_eq.
  replace z with (Z.of_nat (Z.to_nat z)) by lia.
  apply (in_map Sweep.channel), in_seq. lia.
Qed.

Lemma max_min_agree_channels :
  forallb (fun x => forallb (Sweep.max_min_agree x) Sweep.channels) Sweep.channels = true.
Proof. vm_compute. reflexivity. Qed.

Lemma forallb_In {A : Type} (f : A -> bool) (l : list A) (x : A) :
  forallb f l = true -> In x l -> f x = true.
Proof. intros H. now apply forallb_forall. Qed.

Lemma Max_Min_channels (x y : float64) :
  In x Sweep.channels -> In y Sweep.channels ->
  Max x y = Sweep.cmp_max x y /\ Min x y = Sweep.cmp_min x y.
Proof.
  intros Hx Hy.
  pose proof (forallb_In _ _ x max_min_agree_channels Hx) as H1. cbv beta in H1.
  pose proof (forallb_In _ _ y H1 Hy) as H2.
  apply andb_prop in H2 as [Hmax Hmin].
  split; apply FloatAxioms.Leibniz.eqb_spec; assumption.
Qed.

Lemma cmp_max_In (x y : float64) :
  In x Sweep.channels -> In y Sweep.channels -> In (Sweep.cmp_max x y) Sweep.channels.
Proof. intros Hx Hy. unfold Sweep.cmp_max. now destruct (y <? x). Qed.

Lemma cmp_min_In (x y : float64) :
  In x Sweep.channels -> In y Sweep.channels -> In (Sweep.cmp_min x y) Sweep.channels.
Proof. intros Hx Hy. unfold Sweep.cmp_min. now destruct (x <? y). Qed.

(** The check of all 2^24 triples, run once. *)
Lemma triple_ok_channels :
  forallb (fun r =>
    forallb (fun g =>
      forallb (Sweep.triple_ok r g (Sweep.cmp_max r g) (Sweep.cmp_min r g)) Sweep.channels)
      Sweep.channels) Sweep.channels = true.
Proof. vm_compute. reflexivity. Qed.

Lemma hue_ok_channels (r g b : float64) :
  In r Sweep.channels -> In g Sweep.channels -> In b Sweep.channels ->
  Sweep.hue_ok (Sweep.hue_of (Max (Max r g) b) (Min (Min r g) b) r g b) = true.
Proof.
  intros Hr Hg Hb.
  destruct (Max_Min_channels r g Hr Hg) as [-> ->].
  destruct (Max_Min_channels _ b (cmp_max_In r g Hr Hg) Hb) as [-> _].
  destruct (Max_Min_channels _ b (cmp_min_In r g Hr Hg) Hb) as [_ ->].
  pose proof (forallb_In _ _ r triple_ok_channels Hr) as H1. cbv beta in H1.
  pose proof (forallb_In _ _ g H1 Hg) as H2. cbv beta in H2.
  exact (forallb_In _ _ b H2 Hb).
Qed.

(** The hue of [getHSLFromRGB], from the normalised channels. *)
Lemma getHSLFromRGB_Hue (rgb : RGBComponents) :
  let r := float64_of_uint8 (rgb_Red rgb) / 255 in
  let g := float64_of_uint8 (rgb_Green rgb) / 255 in
  let b := float64_of_uint8 (rgb_Blue rgb) / 255 in
  Hue (getHSLFromRGB rgb) = Sweep.hue_of (Max (Max r g) b) (Min (Min r g) b) r g b.
Proof. reflexivity. Qed.

Lemma getHSLFromRGB_hue_ok (rgb : RGBComponents) :
  RGB_wf rgb -> Sweep.hue_ok (Hue (getHSLFromRGB rgb)) = true.
Proof.
  intros (Hr & Hg & Hb). rewrite getHSLFromRGB_Hue. cbv zeta.
  apply hue_ok_channels; now apply channel_In.
Qed.

End AllTriples.

(** C3. For every RGB triple of 8-bit values the hue [getHSLFromRGB]
    computes lies in [0, 360), and [GetColorFromRGB] never returns
    Unknown. *)
Theorem GetColorFromRGB_never_Unknown (rgb : RGBComponents) :
  RGB_wf rgb ->
  hue_in_range (Hue (getHSLFromRGB rgb)) = true
  /\ GetColorFromRGB rgb <> Unknown.
Proof.
  intros Hwf. pose proof (getHSLFromRGB_hue_ok rgb Hwf) as H.
  unfold Sweep.hue_ok in H. apply andb_prop in H as [Hrange Hmatched].
  split; [exact Hrange |].
  unfold GetColorFromRGB. cbv zeta. now apply matchColorFromHSL_matched.
Qed.

Lemma GetColorFromRGB_never_Unknown_witness :
  RGB_wf (mkRGB 255 0 1)
  /\ hue_in_range (Hue (getHSLFromRGB (mkRGB 255 0 1))) = true
  /\ GetColorFromRGB (mkRGB 255 0 1) <> Unknown.
Proof.
  assert (Hwf : RGB_wf (mkRGB 255 0 1)) by (unfold RGB_wf, uint8_range; cbn; lia).
  split; [exact Hwf |].
  apply (GetColorFromRGB_never_Unknown (mkRGB 255 0 1) Hwf).
Defined.


(** * Further properties *)

(** ** The outcome of [GetColorFromHex] on every input *)

Lemma strip_cons (c : ascii) (s : string) :
  Spec.strip (String c s) = if Ascii.eqb c "#" then s else String c s.
Proof.
  destruct c as [[] [] [] [] [] [] [] []]; reflexivity.
Qed.

(** Six characters: the decoded triple when they are six hex digits, the
    panic on one of the pairs otherwise. *)
Lemma six_chars_decode6 (r1 r2 g1 g2 b1 b2 : ascii) :
  match Spec.decode6 (String r1 (String r2 (String g1 (String g2 (String b1 (String b2 "")))))) with
  | Some rgb => six_chars r1 r2 g1 g2 b1 b2 = Returns rgb
  | None =>
      exists x y,
        six_chars r1 r2 g1 g2 b1 b2
        = Panics (PanicError (strconv.syntaxError "ParseUint" (String x (String y ""))))
  end.
Proof.
  cbn [Spec.decode6]. unfold six_chars.
  destruct (Spec.hex_byte r1 r2); [| now exists r1, r2].
  destruct (Spec.hex_byte g1 g2); [| now exists g1, g2].
  destruct (Spec.hex_byte b1 b2); [reflexivity | now exists b1, b2].
Qed.

Lemma decode6_wf (s : string) (rgb : RGBComponents) :
  Spec.decode6 s = Some rgb -> RGB_wf rgb.
Proof.
  destruct s as [| r1 [| r2 [| g1 [| g2 [| b1 [| b2 [| x s]]]]]]]; try discriminate.
  cbn [Spec.decode6].
  destruct (Spec.hex_byte r1 r2) as [r |] eqn:Hr; [| discriminate].
  destruct (Spec.hex_byte g1 g2) as [g |] eqn:Hg; [| discriminate].
  destruct (Spec.hex_byte b1 b2) as [b |] eqn:Hb; [| discriminate].
  intros [= <-]. unfold RGB_wf, uint8_range. cbn [rgb_Red rgb_Green rgb_Blue].
  repeat split; eapply hex_byte_range; eassumption.
Qed.

(** The [switch], by the six digits the stripped input stands for. *)
Lemma switch_on_length_six_digits (t : string) :
  switch_on_length t =
  match Spec.six_digits t with
  | Some digits => rgb <- getRGBFromHex digits ;; Returns (GetColorFromRGB rgb, nil)
  | None => Returns (Unknown, invalid_hex t)
  end.
Proof.
  destruct t as [| c1 [| c2 [| c3 [| c4 [| c5 [| c6 [| c7 [| c8 [| c9 t]]]]]]]]];
    reflexivity.
Qed.

(** [GetColorFromHex] on every input: the index panic on the empty string,
    otherwise the [switch] on the stripped input. *)
Lemma GetColorFromHex_outcome (s : string) :
  GetColorFromHex s =
  match s with
  | EmptyString => Panics (IndexOutOfRange 0 0)
  | _ =>
      match Spec.six_digits (Spec.strip s) with
      | Some digits => rgb <- getRGBFromHex digits ;; Returns (GetColorFromRGB rgb, nil)
      | None => Returns (Unknown, invalid_hex (Spec.strip s))
      end
  end.
Proof.
  destruct s as [| c s]; [reflexivity |].
  rewrite strip_cons, <- switch_on_length_six_digits.
  destruct (Ascii.eqb c "#") eqn:Hc.
  - apply Ascii.eqb_eq in Hc. subst c. apply GetColorFromHex_hash.
  - now apply GetColorFromHex_no_hash.
Qed.

Lemma six_digits_length (t digits : string) :
  Spec.six_digits t = Some digits -> String.length digits = 6%nat.
Proof.
  unfold Spec.six_digits.
  destruct t as [| c1 [| c2 [| c3 [| c4 [| c5 [| c6 [| c7 [| c8 [| c9 t]]]]]]]]];
    cbn [String.length]; try discriminate; now intros [= <-].
Qed.

(** On six characters [getRGBFromHex] returns the decoded triple, or panics
    with a syntax error of [ParseUint]. *)
Lemma getRGBFromHex_length_six (digits : string) :
  String.length digits = 6%nat ->
  match Spec.decode6 digits with
  | Some rgb => getRGBFromHex digits = Returns rgb
  | None =>
      exists x y,
        getRGBFromHex digits
        = Panics (PanicError (strconv.syntaxError "ParseUint" (String x (String y ""))))
  end.
Proof.
  destruct digits as [| r1 [| r2 [| g1 [| g2 [| b1 [| b2 [| x s]]]]]]]; try discriminate.
  intros _. rewrite getRGBFromHex_six. apply six_chars_decode6.
Qed.

Lemma stripped_length_strip (s : string) :
  Spec.stripped_length s = String.length (Spec.strip s).
Proof.
  destruct s as [| c s]; [reflexivity |].
  rewrite stripped_length_cons, strip_cons. now destruct (Ascii.eqb c "#").
Qed.

Lemma six_digits_None (t : string) :
  String.length t <> 3%nat -> String.length t <> 6%nat -> String.length t <> 8%nat ->
  Spec.six_digits t = None.
Proof.
  unfold Spec.six_digits.
  destruct (String.length t) as [| [| [| [| [| [| [| [| [| n]]]]]]]]];
    intros H3 H6 H8; try reflexivity; congruence.
Qed.

Lemma decode6_not_all_hex (digits : string) :
  Spec.all_hex digits = false -> Spec.decode6 digits = None.
Proof.
  destruct digits as [| r1 [| r2 [| g1 [| g2 [| b1 [| b2 [| x s]]]]]]]; try reflexivity.
  cbn [Spec.all_hex Spec.decode6]. unfold Spec.hex_byte, Spec.is_hex_digit.
  destruct (Spec.hex_value r1), (Spec.hex_value r2), (Spec.hex_value g1),
    (Spec.hex_value g2), (Spec.hex_value b1), (Spec.hex_value b2);
    cbn [andb]; intros H; try discriminate H; reflexivity.
Qed.

(** X1. Every non-empty input whose length, once a leading [#] is stripped,
    is not 3, 6 or 8 is answered with [Unknown] and the error that names the
    stripped input; nothing is parsed. *)
Theorem GetColorFromHex_wrong_length (s : string) :
  s <> "" ->
  Spec.stripped_length s <> 3%nat ->
  Spec.stripped_length s <> 6%nat ->
  Spec.stripped_length s <> 8%nat ->
  GetColorFromHex s
  = Returns (Unknown, Errorf ("invalid hex color code: " ++ Spec.strip s)).
Proof.
  rewrite stripped_length_strip. intros Hs H3 H6 H8.
  rewrite GetColorFromHex_outcome, (six_digits_None _ H3 H6 H8).
  destruct s; [congruence | reflexivity].
Qed.

Lemma GetColorFromHex_wrong_length_witness :
  GetColorFromHex "#12345" = Returns (Unknown, Errorf "invalid hex color code: 12345").
Proof.
  apply (GetColorFromHex_wrong_length "#12345"); cbn; congruence.
Defined.

(** X2. When the six digits an input stands for are not all hex digits,
    [GetColorFromHex] returns nothing: it panics with the syntax error
    [strconv.ParseUint] reports on one two-character pair. *)
Theorem GetColorFromHex_non_hex_digit_panics (s digits : string) :
  Spec.six_digits (Spec.strip s) = Some digits ->
  Spec.all_hex digits = false ->
  exists x y,
    GetColorFromHex s
    = Panics (PanicError (mkNumError "ParseUint" (String x (String y "")) ErrSyntax)).
Proof.
  intros Hd Hbad. rewrite GetColorFromHex_outcome.
  destruct s as [| c s]; [discriminate Hd |].
  rewrite Hd.
  pose proof (getRGBFromHex_length_six digits (six_digits_length _ _ Hd)) as H.
  rewrite (decode6_not_all_hex digits Hbad) in H.
  destruct H as (x & y & ->). now exists x, y.
Qed.

Lemma GetColorFromHex_non_hex_digit_panics_witness :
  exists x y,
    GetColorFromHex "0fx"
    = Panics (PanicError (mkNumError "ParseUint" (String x (String y "")) ErrSyntax)).
Proof.
  apply (GetColorFromHex_non_hex_digit_panics "0fx" "00ffxx"); reflexivity.
Defined.

Lemma substring_0_6 (r1 r2 g1 g2 b1 b2 : ascii) (tail : string) :
  String.substring 0 6 (String r1 (String r2 (String g1 (String g2 (String b1 (String b2 tail))))))
  = String r1 (String r2 (String g1 (String g2 (String b1 (String b2 ""))))).
Proof. cbn [String.substring]. now rewrite substring_0_0. Qed.

(** X3. [getRGBFromHex] returns a triple exactly when the first six bytes of
    its argument are hex digits, and then the triple they decode to, each
    channel in [0, 255]; whatever follows the sixth byte is not read. *)
Theorem getRGBFromHex_decodes_prefix (s : string) (rgb : RGBComponents) :
  (getRGBFromHex s = Returns rgb <-> Spec.decode6 (String.substring 0 6 s) = Some rgb)
  /\ (getRGBFromHex s = Returns rgb -> RGB_wf rgb).
Proof.
  assert (H : getRGBFromHex s = Returns rgb <-> Spec.decode6 (String.substring 0 6 s) = Some rgb).
  { destruct s as [| r1 [| r2 [| g1 [| g2 [| b1 [| b2 tail]]]]]].
    1-2: split; discriminate.
    1-4: unfold getRGBFromHex, slice; cbn [String.length Nat.leb andb Nat.sub String.substring bind];
      rewrite ?ParseUint_pair;
      repeat match goal with
             | |- context [Spec.hex_byte ?a ?b] => destruct (Spec.hex_byte a b)
             end; split; discriminate.
    rewrite getRGBFromHex_six, substring_0_6.
    pose proof (six_chars_decode6 r1 r2 g1 g2 b1 b2) as H.
    destruct (Spec.decode6 _) as [rgb' |].
    - rewrite H. split; intros [= ->]; reflexivity.
    - destruct H as (x & y & ->). split; discriminate. }
  split; [exact H |].
  intros Hr. apply H in Hr. eapply decode6_wf; eassumption.
Qed.

(** The triple [getRGBFromHex] returns on the six digits, when it returns. *)
Lemma GetColorFromHex_returns (s : string) (c : Color) (e : error) :
  GetColorFromHex s = Returns (c, e) ->
  (exists rgb, Spec.parseHex s = Some rgb /\ c = GetColorFromRGB rgb /\ e = nil)
  \/ (Spec.parseHex s = None /\ c = Unknown /\ e = invalid_hex (Spec.strip s)).
Proof.
  rewrite GetColorFromHex_outcome. unfold Spec.parseHex.
  destruct s as [| c0 s]; [discriminate |].
  destruct (Spec.six_digits (Spec.strip (String c0 s))) as [digits |] eqn:Hd.
  - pose proof (getRGBFromHex_length_six digits (six_digits_length _ _ Hd)) as H.
    destruct (Spec.decode6 digits) as [rgb |].
    + rewrite H. cbn [bind]. intros [= <- <-]. left. now exists rgb.
    + destruct H as (x & y & ->). discriminate.
  - intros [= <- <-]. now right.
Qed.

Lemma parseHex_returns (s : string) (rgb : RGBComponents) :
  Spec.parseHex s = Some rgb -> GetColorFromHex s = Returns (GetColorFromRGB rgb, nil).
Proof.
  unfold Spec.parseHex. rewrite GetColorFromHex_outcome.
  destruct s as [| c0 s]; [discriminate |].
  destruct (Spec.six_digits (Spec.strip (String c0 s))) as [digits |] eqn:Hd; [| discriminate].
  intros Hrgb.
  pose proof (getRGBFromHex_length_six digits (six_digits_length _ _ Hd)) as H.
  rewrite Hrgb in H. now rewrite H.
Qed.

(** X4. [GetColorFromHex] succeeds, that is returns a Color with a nil
    error, exactly on the inputs the contract of the hex parser accepts (an
    optional [#], then 3, 6 or 8 characters whose digits read are hex
    digits), and the Color is that of the decoded triple. *)
Theorem GetColorFromHex_refines_parseHex (s : string) (c : Color) :
  GetColorFromHex s = Returns (c, nil)
  <-> exists rgb, Spec.parseHex s = Some rgb /\ c = GetColorFromRGB rgb.
Proof.
  split.
  - intros H. destruct (GetColorFromHex_returns s c nil H) as [(rgb & Hp & Hc & _) | (_ & _ & He)].
    + now exists rgb.
    + discriminate He.
  - intros (rgb & Hp & ->). now apply parseHex_returns.
Qed.

(** X5. Whenever [GetColorFromHex] returns, the Color is [Unknown] exactly
    when the error is not nil: a parsed colour is never [Unknown], and an
    error always comes with [Unknown]. *)
Theorem GetColorFromHex_Unknown_iff_error (s : string) (c : Color) (e : error) :
  GetColorFromHex s = Returns (c, e) -> (c = Unknown <-> e <> nil).
Proof.
  intros H. destruct (GetColorFromHex_returns s c e H) as [(rgb & Hp & -> & ->) | (_ & -> & ->)].
  - assert (Hwf : RGB_wf rgb).
    { unfold Spec.parseHex in Hp. destruct (Spec.six_digits (Spec.strip s)); [| discriminate].
      eapply decode6_wf; eassumption. }
    assert (Hne : GetColorFromRGB rgb <> Unknown).
    { pose proof (getHSLFromRGB_hue_ok rgb Hwf) as Hok.
      unfold Sweep.hue_ok in Hok. apply andb_prop in Hok as [_ Hm].
      unfold GetColorFromRGB. cbv zeta. now apply matchColorFromHSL_matched. }
    split; [intros Hu; contradiction | intros Hn; now contradiction Hn].
  - split; [discriminate | reflexivity].
Qed.

Lemma GetColorFromHex_Unknown_iff_error_witness :
  GetColorFromHex "#12" = Returns (Unknown, Errorf "invalid hex color code: 12")
  /\ (Unknown = Unknown <-> Errorf "invalid hex color code: 12" <> nil).
Proof.
  split; [reflexivity |].
  apply (GetColorFromHex_Unknown_iff_error "#12"). reflexivity.
Defined.

(** ** Letter case *)

Lemma to_lower_facts (c : ascii) :
  Spec.hex_value (Spec.to_lower c) = Spec.hex_value c
  /\ Ascii.eqb (Spec.to_lower c) "#" = Ascii.eqb c "#".
Proof.
  destruct c as [[] [] [] [] [] [] [] []]; split; reflexivity.
Qed.

Lemma lowercase_length (s : string) :
  String.length (Spec.lowercase s) = String.length s.
Proof.
  induction s as [| c s IH]; cbn [Spec.lowercase String.length]; congruence.
Qed.

Lemma lowercase_strip (s : string) :
  Spec.strip (Spec.lowercase s) = Spec.lowercase (Spec.strip s).
Proof.
  destruct s as [| c s]; [reflexivity |].
  cbn [Spec.lowercase]. rewrite !strip_cons, (proj2 (to_lower_facts c)).
  now destruct (Ascii.eqb c "#").
Qed.

Lemma lowercase_double_each (s : string) :
  Spec.double_each (Spec.lowercase s) = Spec.lowercase (Spec.double_each s).
Proof.
  induction s as [| c s IH]; cbn [Spec.lowercase Spec.double_each]; congruence.
Qed.

Lemma lowercase_substring (s : string) (n m : nat) :
  String.substring n m (Spec.lowercase s) = Spec.lowercase (String.substring n m s).
Proof.
  revert n m. induction s as [| c s IH]; intros [| n] [| m];
    cbn [Spec.lowercase String.substring]; try reflexivity.
  - now rewrite IH.
  - apply IH.
  - apply IH.
Qed.

Lemma lowercase_six_digits (t : string) :
  Spec.six_digits (Spec.lowercase t) = option_map Spec.lowercase (Spec.six_digits t).
Proof.
  unfold Spec.six_digits. rewrite lowercase_length.
  destruct (String.length t) as [| [| [| [| [| [| [| [| [| n]]]]]]]]]; cbn [option_map];
    try reflexivity.
  - now rewrite lowercase_double_each.
  - now rewrite lowercase_substring.
Qed.

Lemma lowercase_hex_byte (a b : ascii) :
  Spec.hex_byte (Spec.to_lower a) (Spec.to_lower b) = Spec.hex_byte a b.
Proof.
  unfold Spec.hex_byte.
  now rewrite (proj1 (to_lower_facts a)), (proj1 (to_lower_facts b)).
Qed.

Lemma lowercase_decode6 (digits : string) :
  Spec.decode6 (Spec.lowercase digits) = Spec.decode6 digits.
Proof.
  destruct digits as [| r1 [| r2 [| g1 [| g2 [| b1 [| b2 [| x s]]]]]]]; try reflexivity.
  cbn [Spec.lowercase Spec.decode6]. now rewrite !lowercase_hex_byte.
Qed.

Lemma lowercase_parseHex (s : string) :
  Spec.parseHex (Spec.lowercase s) = Spec.parseHex s.
Proof.
  unfold Spec.parseHex. rewrite lowercase_strip, lowercase_six_digits.
  destruct (Spec.six_digits (Spec.strip s)); cbn [option_map]; [apply lowercase_decode6 | reflexivity].
Qed.

(** X6. Parsing does not see letter case: an input and the same input in
    lower case succeed together, with the same Color. *)
Theorem GetColorFromHex_case_insensitive (s : string) (c : Color) :
  GetColorFromHex (Spec.lowercase s) = Returns (c, nil)
  <-> GetColorFromHex s = Returns (c, nil).
Proof.
  split; intros H.
  - destruct (GetColorFromHex_returns _ c nil H) as [(rgb & Hp & -> & _) | (_ & _ & He)];
      [| discriminate He].
    rewrite lowercase_parseHex in Hp. now apply parseHex_returns.
  - destruct (GetColorFromHex_returns _ c nil H) as [(rgb & Hp & -> & _) | (_ & _ & He)];
      [| discriminate He].
    apply parseHex_returns. now rewrite lowercase_parseHex.
Qed.

(** ** The leading [#] *)




(** ** The order of [float64] values is transitive *)

Section FloatOrderMore.

Local Open Scope float_scope.

Lemma SFleb_trans (x y z : spec_float) :
  SFleb x y = true -> SFleb y z = true -> SFleb x z = true.
Proof.
  unfold SFleb.
  destruct x as [sx | sx | | sx mx ex], y as [sy | sy | | sy my ey], z as [sz | sz | | sz mz ez];
    try destruct sx; try destruct sy; try destruct sz;
    cbn [SFcompare]; try discriminate; try reflexivity.
  all: change (Pos.compare_cont Eq) with Pos.compare.
  all: destruct (Z.compare_spec ex ey), (Z.compare_spec ey ez), (Z.compare_spec ex ez);
    try discriminate; try reflexivity; try lia; subst.
  all: destruct (Pos.compare_spec mx my), (Pos.compare_spec my mz), (Pos.compare_spec mx mz);
    cbn [CompOpp]; try discriminate; try reflexivity; lia.
Qed.

Lemma leb_trans (x y z : float64) :
  (x <=? y) = true -> (y <=? z) = true -> (x <=? z) = true.
Proof.
  rewrite !FloatAxioms.leb_spec. apply SFleb_trans.
Qed.

Lemma ltb_leb (x y : float64) : (x <? y) = true -> (x <=? y) = true.
Proof.
  rewrite FloatAxioms.ltb_spec, FloatAxioms.leb_spec. unfold SFltb, SFleb.
  now destruct (SFcompare (Prim2SF x) (Prim2SF y)) as [[] |].
Qed.

End FloatOrderMore.

(** ** More on the rules of [matchColorFromHSL] *)

Section RulesMore.

Local Open Scope float_scope.

(** The saturation test inside the Orange and Yellow rules changes nothing. *)
Lemma by_hue_saturation (s s' h : float64) : by_hue s h = by_hue s' h.
Proof.
  unfold by_hue. now destruct (s <? 90), (s' <? 90).
Qed.

Lemma by_hue_unmatched (s h : float64) :
  Sweep.matched h = false -> by_hue s h = Unknown.
Proof.
  unfold Sweep.matched. destruct (0 <=? h) eqn:H0; [| intros _; now apply by_hue_below_zero].
  cbn [andb]. intros H. apply orb_false_elim in H as [H345 H346].
  assert (Hc : forall c, (c <=? 345) = true -> (h <=? c) = false).
  { intros c Hc. destruct (h <=? c) eqn:E; [| reflexivity].
    rewrite (leb_trans h c 345 E Hc) in H345. discriminate. }
  unfold by_hue.
  rewrite H0, H346, H345, (Hc 16 eq_refl), (Hc 36 eq_refl), (Hc 64 eq_refl),
    (Hc 165 eq_refl), (Hc 208 eq_refl), (Hc 260 eq_refl), (Hc 290 eq_refl).
  now rewrite !andb_false_r.
Qed.

(** A floored lightness of 13 or less is Black: rule 1 asks for 90 or more. *)
Lemma matchColorFromHSL_dark (hsl : HSLComponents) :
  (Floor (Lightness hsl) <=? 13) = true -> matchColorFromHSL hsl = Black.
Proof.
  intros H. unfold matchColorFromHSL. cbv zeta. rewrite H.
  destruct (90 <=? Floor (Lightness hsl)) eqn:E.
  - pose proof (leb_trans 90 _ 13 E H) as Hbad. discriminate Hbad.
  - now rewrite andb_false_r.
Qed.

Lemma matchColorFromHSL_rule1 (hsl : HSLComponents) :
  ((Floor (Saturation hsl) <=? 10) && (90 <=? Floor (Lightness hsl))) = true ->
  matchColorFromHSL hsl = White.
Proof.
  intros H. unfold matchColorFromHSL. cbv zeta. now rewrite H.
Qed.

End RulesMore.

(** X7. [matchColorFromHSL] answers Unknown exactly when rules 1 to 3 do
    not match and the floored hue is negative, a NaN, or strictly between 345
    and 346: rules 4 to 11 cover every other value. *)
Theorem matchColorFromHSL_Unknown_iff (hsl : HSLComponents) :
  matchColorFromHSL hsl = Unknown
  <-> white_or_black hsl = false /\ Sweep.matched (Floor (Hue hsl)) = false.
Proof.
  split.
  - intros H. destruct (white_or_black hsl) eqn:Hwb.
    + destruct (matchColorFromHSL_white_or_black hsl Hwb) as [Hc | Hc];
        rewrite Hc in H; discriminate.
    + split; [reflexivity |].
      destruct (Sweep.matched (Floor (Hue hsl))) eqn:Hm; [| reflexivity].
      now apply matchColorFromHSL_matched in Hm.
  - intros [Hwb Hm]. rewrite (matchColorFromHSL_by_hue hsl Hwb).
    now apply by_hue_unmatched.
Qed.

(** X8. Past rules 1 to 3 the floored hue alone decides: two HSL triples
    with the same floored hue get the same Color whatever their saturation
    and lightness, so the saturation test inside the Orange and Yellow rules
    has no effect. *)
Theorem hue_alone_decides (hsl1 hsl2 : HSLComponents) :
  white_or_black hsl1 = false -> white_or_black hsl2 = false ->
  Floor (Hue hsl1) = Floor (Hue hsl2) ->
  GetColorFromHSL hsl1 = GetColorFromHSL hsl2.
Proof.
  intros H1 H2 Hh. unfold GetColorFromHSL. cbv zeta.
  rewrite (matchColorFromHSL_by_hue hsl1 H1), (matchColorFromHSL_by_hue hsl2 H2), Hh.
  apply by_hue_saturation.
Qed.

Lemma hue_alone_decides_witness :
  GetColorFromHSL (mkHSL 30 95 50) = GetColorFromHSL (mkHSL 30.5 40 30).
Proof.
  apply (hue_alone_decides (mkHSL 30 95 50) (mkHSL 30.5 40 30)); reflexivity.
Defined.

(** X9. A floored lightness of 13 or less is Black whatever the hue and the
    saturation: the White rule cannot match first, it needs a lightness of 90
    or more. *)
Theorem GetColorFromHSL_dark (hsl : HSLComponents) :
  (Floor (Lightness hsl) <=? 13)%float = true -> GetColorFromHSL hsl = Black.
Proof.
  intros H. unfold GetColorFromHSL. cbv zeta. now apply matchColorFromHSL_dark.
Qed.

Lemma GetColorFromHSL_dark_witness :
  GetColorFromHSL (mkHSL 120 100 13.5) = Black.
Proof.
  apply (GetColorFromHSL_dark (mkHSL 120 100 13.5)). reflexivity.
Defined.

(** ** Greys, dark and bright triples, percentages *)

Lemma Color_eqb_eq (c1 c2 : Color) : Color_eqb c1 c2 = true -> c1 = c2.
Proof.
  destruct c1, c2; try reflexivity; discriminate.
Qed.

Lemma uint8_range_In_bytes (v : Z) : uint8_range v -> In v Table.bytes.
Proof.
  unfold uint8_range, Table.bytes. intros Hv.
  replace v with (Z.of_nat (Z.to_nat v)) by lia.
  apply in_map, in_seq. lia.
Qed.

Lemma greys_checked :
  forallb (fun v =>
    Leibniz.eqb (Hue (getHSLFromRGB (mkRGB v v v))) 0
    && Leibniz.eqb (Saturation (getHSLFromRGB (mkRGB v v v))) 0
    && Color_eqb (GetColorFromRGB (mkRGB v v v)) (Table.grey v)) Table.bytes = true.
Proof. vm_compute. reflexivity. Qed.

(** X10. A grey, with its three channels equal, has hue 0 and saturation 0
    and is never given a hue name: it is Black up to 229 and White from
    230. *)
Theorem GetColorFromRGB_grey (v : Z) :
  uint8_range v ->
  Hue (getHSLFromRGB (mkRGB v v v)) = 0%float
  /\ Saturation (getHSLFromRGB (mkRGB v v v)) = 0%float
  /\ GetColorFromRGB (mkRGB v v v) = if 230 <=? v then White else Black.
Proof.
  intros Hv.
  pose proof (forallb_In _ _ v greys_checked (uint8_range_In_bytes v Hv)) as H.
  cbv beta in H.
  apply andb_prop in H as [H Hc]. apply andb_prop in H as [Hh Hs].
  repeat split.
  - now apply FloatAxioms.Leibniz.eqb_spec.
  - now apply FloatAxioms.Leibniz.eqb_spec.
  - now apply Color_eqb_eq.
Qed.

Lemma GetColorFromRGB_grey_witness :
  Hue (getHSLFromRGB (mkRGB 128 128 128)) = 0%float
  /\ Saturation (getHSLFromRGB (mkRGB 128 128 128)) = 0%float
  /\ GetColorFromRGB (mkRGB 128 128 128) = Black.
Proof.
  apply (GetColorFromRGB_grey 128). unfold uint8_range. lia.
Defined.

Section Percentages.

Local Open Scope float_scope.

Lemma cmp_max_In_list (l : list float64) (x y : float64) :
  In x l -> In y l -> In (Sweep.cmp_max x y) l.
Proof. intros Hx Hy. unfold Sweep.cmp_max. now destruct (y <? x). Qed.

Lemma cmp_min_In_list (l : list float64) (x y : float64) :
  In x l -> In y l -> In (Sweep.cmp_min x y) l.
Proof. intros Hx Hy. unfold Sweep.cmp_min. now destruct (x <? y). Qed.

Lemma bracketed_channels :
  forallb (fun x => forallb (Table.bracketed x) Sweep.channels) Sweep.channels = true.
Proof. vm_compute. reflexivity. Qed.

Lemma percents_checked :
  forallb (fun x => forallb (Table.percents_ok x) Sweep.channels) Sweep.channels = true.
Proof. vm_compute. reflexivity. Qed.

Lemma bracketed_In (x y : float64) :
  In x Sweep.channels -> In y Sweep.channels ->
  (Sweep.cmp_min x y <=? x) = true /\ (x <=? Sweep.cmp_max x y) = true.
Proof.
  intros Hx Hy.
  pose proof (forallb_In _ _ x bracketed_channels Hx) as H1. cbv beta in H1.
  pose proof (forallb_In _ _ y H1 Hy) as H2. unfold Table.bracketed in H2.
  apply andb_prop in H2 as [H2 _]. apply andb_prop in H2 as [H2 Hmax].
  apply andb_prop in H2 as [Hmin _]. now split.
Qed.

Lemma min_below_max (r g b : float64) :
  In r Sweep.channels -> In g Sweep.channels -> In b Sweep.channels ->
  (Sweep.cmp_min (Sweep.cmp_min r g) b <=? Sweep.cmp_max (Sweep.cmp_max r g) b) = true.
Proof.
  intros Hr Hg Hb.
  pose proof (cmp_min_In r g Hr Hg) as Hm2. pose proof (cmp_max_In r g Hr Hg) as Hm1.
  destruct (bracketed_In r g Hr Hg) as [H1 H2].
  destruct (bracketed_In _ b Hm2 Hb) as [H3 _].
  destruct (bracketed_In _ b Hm1 Hb) as [_ H4].
  eapply leb_trans; [exact H3 |]. eapply leb_trans; [exact H1 |].
  eapply leb_trans; [exact H2 | exact H4].
Qed.

(** Saturation and lightness of [getHSLFromRGB], from the normalised
    channels. *)
Lemma getHSLFromRGB_Saturation_Lightness (rgb : RGBComponents) :
  let r := float64_of_uint8 (rgb_Red rgb) / 255 in
  let g := float64_of_uint8 (rgb_Green rgb) / 255 in
  let b := float64_of_uint8 (rgb_Blue rgb) / 255 in
  Saturation (getHSLFromRGB rgb)
  = Table.saturation_of (Max (Max r g) b) (Min (Min r g) b)
  /\ Lightness (getHSLFromRGB rgb)
     = Table.lightness_of (Max (Max r g) b) (Min (Min r g) b).
Proof. split; reflexivity. Qed.

Lemma Max_Min_three (r g b : float64) :
  In r Sweep.channels -> In g Sweep.channels -> In b Sweep.channels ->
  Max (Max r g) b = Sweep.cmp_max (Sweep.cmp_max r g) b
  /\ Min (Min r g) b = Sweep.cmp_min (Sweep.cmp_min r g) b.
Proof.
  intros Hr Hg Hb.
  destruct (Max_Min_channels r g Hr Hg) as [-> ->].
  destruct (Max_Min_channels _ b (cmp_max_In r g Hr Hg) Hb) as [-> _].
  destruct (Max_Min_channels _ b (cmp_min_In r g Hr Hg) Hb) as [_ ->].
  now split.
Qed.

End Percentages.

(** X11. For every RGB triple of 8-bit values the saturation and the
    lightness [getHSLFromRGB] computes are percentages, between 0 and 100. *)
Theorem getHSLFromRGB_percentages (rgb : RGBComponents) :
  RGB_wf rgb ->
  ((0 <=? Saturation (getHSLFromRGB rgb))%float = true
   /\ (Saturation (getHSLFromRGB rgb) <=? 100)%float = true)
  /\ ((0 <=? Lightness (getHSLFromRGB rgb))%float = true
      /\ (Lightness (getHSLFromRGB rgb) <=? 100)%float = true).
Proof.
  intros (Hr & Hg & Hb).
  apply channel_In in Hr, Hg, Hb.
  destruct (getHSLFromRGB_Saturation_Lightness rgb) as [-> ->]. cbv zeta.
  destruct (Max_Min_three _ _ _ Hr Hg Hb) as [-> ->].
  pose proof (min_below_max _ _ _ Hr Hg Hb) as Hle.
  pose proof (cmp_max_In _ _ (cmp_max_In _ _ Hr Hg) Hb) as Hmax.
  pose proof (cmp_min_In _ _ (cmp_min_In _ _ Hr Hg) Hb) as Hmin.
  pose proof (forallb_In _ _ _ percents_checked Hmax) as H1. cbv beta in H1.
  pose proof (forallb_In _ _ _ H1 Hmin) as H2.
  unfold Table.percents_ok in H2. rewrite Hle in H2. cbn [implb] in H2.
  unfold Table.percent in H2.
  apply andb_prop in H2 as [Hs Hl].
  apply andb_prop in Hs as [Hs0 Hs100]. apply andb_prop in Hl as [Hl0 Hl100].
  repeat split; assumption.
Qed.

Lemma getHSLFromRGB_percentages_witness :
  ((0 <=? Saturation (getHSLFromRGB (mkRGB 30 144 255)))%float = true
   /\ (Saturation (getHSLFromRGB (mkRGB 30 144 255)) <=? 100)%float = true)
  /\ ((0 <=? Lightness (getHSLFromRGB (mkRGB 30 144 255)))%float = true
      /\ (Lightness (getHSLFromRGB (mkRGB 30 144 255)) <=? 100)%float = true).
Proof.
  apply (getHSLFromRGB_percentages (mkRGB 30 144 255)).
  unfold RGB_wf, uint8_range. cbn. lia.
Defined.

Section DarkAndBright.

Local Open Scope float_scope.

Lemma dark_eq : Table.dark = map Sweep.channel (seq 0 51).
Proof. vm_compute. reflexivity. Qed.

Lemma bright_eq : Table.bright = map Sweep.channel (seq 230 26).
Proof. vm_compute. reflexivity. Qed.

Lemma channel_In_range (lo len : nat) (z : Z) :
  (Z.of_nat lo <= z < Z.of_nat (lo + len))%Z ->
  In (float64_of_uint8 z / 255) (map Sweep.channel (seq lo len)).
Proof.
  intros Hz. replace z with (Z.of_nat (Z.to_nat z)) by lia.
  apply (in_map Sweep.channel), in_seq. lia.
Qed.

Lemma In_range_channels (lo len : nat) (x : float64) :
  (lo + len <= 256)%nat -> In x (map Sweep.channel (seq lo len)) -> In x Sweep.channels.
Proof.
  intros Hlen Hx. rewrite channels_eq. apply in_map_iff in Hx as (n & <- & Hn).
  apply in_map. apply in_seq in Hn. apply in_seq. lia.
Qed.

Lemma dark_checked :
  forallb (fun x => forallb (Table.dark_ok x) Table.dark) Table.dark = true.
Proof. vm_compute. reflexivity. Qed.

Lemma bright_checked :
  forallb (fun x => forallb (Table.bright_ok x) Table.bright) Table.bright = true.
Proof. vm_compute. reflexivity. Qed.

(** Saturation and lightness of a triple whose normalised channels all lie
    in a list [l] of channels: those of a maximum and a minimum in [l]. *)
Lemma max_min_in_list (l : list float64) (rgb : RGBComponents) :
  (forall x, In x l -> In x Sweep.channels) ->
  In (float64_of_uint8 (rgb_Red rgb) / 255) l ->
  In (float64_of_uint8 (rgb_Green rgb) / 255) l ->
  In (float64_of_uint8 (rgb_Blue rgb) / 255) l ->
  exists max min,
    In max l /\ In min l
    /\ Saturation (getHSLFromRGB rgb) = Table.saturation_of max min
    /\ Lightness (getHSLFromRGB rgb) = Table.lightness_of max min.
Proof.
  intros Hl Hr Hg Hb.
  destruct (getHSLFromRGB_Saturation_Lightness rgb) as [Hs Hli]. cbv zeta in Hs, Hli.
  destruct (Max_Min_three _ _ _ (Hl _ Hr) (Hl _ Hg) (Hl _ Hb)) as [Hmax Hmin].
  rewrite Hmax, Hmin in Hs, Hli.
  eexists. eexists. split; [| split; [| split; [exact Hs | exact Hli]]].
  - apply cmp_max_In_list; [apply cmp_max_In_list |]; assumption.
  - apply cmp_min_In_list; [apply cmp_min_In_list |]; assumption.
Qed.

End DarkAndBright.

Lemma matchColorFromHSL_rules_say_black (hsl : HSLComponents) :
  Table.rules_say_black (Floor (Saturation hsl)) (Floor (Lightness hsl)) = true ->
  matchColorFromHSL hsl = Black.
Proof.
  unfold Table.rules_say_black, matchColorFromHSL. cbv zeta. intros H.
  apply andb_prop in H as [H1 H23].
  apply negb_true_iff in H1. rewrite H1.
  destruct (Floor (Lightness hsl) <=? 13)%float; [reflexivity |].
  cbn [orb] in H23. now rewrite H23.
Qed.

(** X12. An RGB triple whose three channels are all at most 50 is Black,
    and 50 is the largest such bound: (51, 22, 22) is Red. *)
Theorem GetColorFromRGB_dark (rgb : RGBComponents) :
  (0 <= rgb_Red rgb <= 50 -> 0 <= rgb_Green rgb <= 50 -> 0 <= rgb_Blue rgb <= 50 ->
   GetColorFromRGB rgb = Black)
  /\ GetColorFromRGB (mkRGB 51 22 22) = Red.
Proof.
  split; [| reflexivity].
  intros Hr Hg Hb.
  destruct (max_min_in_list Table.dark rgb) as (max & min & Hmax & Hmin & Hs & Hl).
  - intros x Hx. rewrite dark_eq in Hx. apply (In_range_channels 0 51); [lia | exact Hx].
  - rewrite dark_eq. apply channel_In_range. lia.
  - rewrite dark_eq. apply channel_In_range. lia.
  - rewrite dark_eq. apply channel_In_range. lia.
  - unfold GetColorFromRGB. cbv zeta. apply matchColorFromHSL_rules_say_black.
    rewrite Hs, Hl.
    pose proof (forallb_In _ _ _ dark_checked Hmax) as H1. cbv beta in H1.
    exact (forallb_In _ _ _ H1 Hmin).
Qed.

Lemma GetColorFromRGB_dark_witness :
  GetColorFromRGB (mkRGB 50 0 20) = Black.
Proof.
  apply (proj1 (GetColorFromRGB_dark (mkRGB 50 0 20))); cbn; lia.
Defined.

(** X13. An RGB triple whose three channels are all at least 230 is
    White, and 230 is the smallest such bound: (229, 229, 229) is Black. *)
Theorem GetColorFromRGB_bright (rgb : RGBComponents) :
  (230 <= rgb_Red rgb <= 255 -> 230 <= rgb_Green rgb <= 255 -> 230 <= rgb_Blue rgb <= 255 ->
   GetColorFromRGB rgb = White)
  /\ GetColorFromRGB (mkRGB 229 229 229) = Black.
Proof.
  split; [| reflexivity].
  intros Hr Hg Hb.
  destruct (max_min_in_list Table.bright rgb) as (max & min & Hmax & Hmin & Hs & Hl).
  - intros x Hx. rewrite bright_eq in Hx. apply (In_range_channels 230 26); [lia | exact Hx].
  - rewrite bright_eq. apply channel_In_range. lia.
  - rewrite bright_eq. apply channel_In_range. lia.
  - rewrite bright_eq. apply channel_In_range. lia.
  - unfold GetColorFromRGB. cbv zeta. apply matchColorFromHSL_rule1. rewrite Hs, Hl.
    pose proof (forallb_In _ _ _ bright_checked Hmax) as H1. cbv beta in H1.
    exact (forallb_In _ _ _ H1 Hmin).
Qed.

Lemma GetColorFromRGB_bright_witness :
  GetColorFromRGB (mkRGB 230 255 240) = White.
Proof.
  apply (proj1 (GetColorFromRGB_bright (mkRGB 230 255 240))); cbn; lia.
Defined.

(** ** Integral hues *)

Lemma degrees_checked :
  forallb (fun n => Color_eqb (by_hue 0%float (Table.degree n)) (Table.hue_name n)) Table.degrees
  = true.
Proof. vm_compute. reflexivity. Qed.

(** X14. Past rules 1 to 3, a floored hue that is a whole number of degrees
    from 0 to 359 is named by the integer thresholds alone: Red up to 16 and
    from 346, Orange up to 36, Yellow up to 64, Green up to 165, LightBlue up
    to 208, Blue up to 260, Purple up to 345; no whole degree falls to
    Unknown. *)
Theorem whole_degrees (hsl : HSLComponents) (n : Z) :
  white_or_black hsl = false ->
  0 <= n < 360 ->
  Floor (Hue hsl) = Table.degree n ->
  GetColorFromHSL hsl = Table.hue_name n /\ GetColorFromHSL hsl <> Unknown.
Proof.
  intros Hwb Hn Hh.
  assert (H : GetColorFromHSL hsl = Table.hue_name n).
  { unfold GetColorFromHSL. cbv zeta.
    rewrite (matchColorFromHSL_by_hue hsl Hwb), Hh,
      (by_hue_saturation _ 0%float).
    apply Color_eqb_eq.
    apply (forallb_In _ _ n degrees_checked).
    unfold Table.degrees. replace n with (Z.of_nat (Z.to_nat n)) by lia.
    apply in_map, in_seq. lia. }
  split; [exact H |]. rewrite H. unfold Table.hue_name.
  repeat match goal with |- context [if ?b then _ else _] => destruct b end; discriminate.
Qed.

Lemma whole_degrees_witness :
  GetColorFromHSL (mkHSL 200.5 100 50) = LightBlue
  /\ GetColorFromHSL (mkHSL 200.5 100 50) <> Unknown.
Proof.
  apply (whole_degrees (mkHSL 200.5 100 50) 200); [reflexivity | lia | reflexivity].
Defined.

(** ** [Color.String] *)

Lemma append_cancel_r (s1 s2 t : string) :
  String.length t = 1%nat -> (s1 ++ t = s2 ++ t)%string -> s1 = s2.
Proof.
  destruct t as [| c [| d t]]; try discriminate. intros _.
  revert s2. induction s1 as [| a s1 IH]; intros [| b s2]; cbn [String.append];
    try reflexivity.
  - destruct s2; discriminate.
  - destruct s1; discriminate.
  - intros [= -> H]. f_equal. now apply IH.
Qed.

Lemma string_of_int_inj (a b : Z) :
  NilZero.string_of_int (Z.to_int a) = NilZero.string_of_int (Z.to_int b) -> a = b.
Proof.
  intros H. apply DecimalZ.to_int_inj.
  assert (Hnil : forall z, Z.to_int z <> Decimal.Pos Decimal.Nil
                           /\ Z.to_int z <> Decimal.Neg Decimal.Nil).
  { intros z. split; intros Hz; pose proof (f_equal Z.of_int Hz) as Hz';
      rewrite DecimalZ.of_to in Hz'; cbn in Hz'; subst z; discriminate Hz. }
  assert (Some (Z.to_int a) = Some (Z.to_int b)) as [= E]; [| exact E].
  rewrite <- (NilZero.isi (Z.to_int a)), <- (NilZero.isi (Z.to_int b)), H;
    try reflexivity; apply Hnil.
Qed.

Lemma Color_String_named (c : Z) :
  0 <= c <= 9 -> exists k, c = Color_value k /\ Color_String c = Returns (nth (Z.to_nat c) colors "").
Proof.
  intros Hc.
  assert (H : c = 0 \/ c = 1 \/ c = 2 \/ c = 3 \/ c = 4 \/ c = 5 \/ c = 6 \/ c = 7 \/ c = 8 \/ c = 9)
    by lia.
  destruct H as [-> | [-> | [-> | [-> | [-> | [-> | [-> | [-> | [-> | ->]]]]]]]]].
  - now exists Unknown.
  - now exists White.
  - now exists Black.
  - now exists Red.
  - now exists Orange.
  - now exists Yellow.
  - now exists Green.
  - now exists LightBlue.
  - now exists Blue.
  - now exists Purple.
Qed.

Lemma Color_String_other (c : Z) :
  c < 0 \/ 9 < c -> Color_String c = Returns (Sprintf_Color c).
Proof.
  intros Hc. unfold Color_String. cbn [Color_value].
  destruct (Z.ltb_spec c 0), (Z.ltb_spec 9 c); try reflexivity. lia.
Qed.

(** X15. [String] never panics: the range test keeps the index inside the
    array.  A value from 0 to 9 gets one of the ten names, every other value
    the text [Color(n)] with [n] in decimal, which is none of the names. *)
Theorem Color_String_returns (c : Z) :
  exists s,
    Color_String c = Returns s
    /\ (0 <= c <= 9 -> In s colors)
    /\ (c < 0 \/ 9 < c -> s = Sprintf_Color c /\ ~ In s colors).
Proof.
  destruct (Z_le_gt_dec 0 c) as [H0 |]; [destruct (Z_le_gt_dec c 9) as [H9 |] |].
  - destruct (Color_String_named c (conj H0 H9)) as (k & -> & Hs).
    eexists. split; [exact Hs |]. split; [| lia].
    intros _. destruct k; cbn; tauto.
  - eexists. split; [apply Color_String_other; lia |]. split; [lia |].
    intros _. split; [reflexivity |].
    unfold Sprintf_Color, colors. cbn [String.append In].
    intros H. repeat destruct H as [H | H]; discriminate H || exact H.
  - eexists. split; [apply Color_String_other; lia |]. split; [lia |].
    intros _. split; [reflexivity |].
    unfold Sprintf_Color, colors. cbn [String.append In].
    intros H. repeat destruct H as [H | H]; discriminate H || exact H.
Qed.

Lemma Color_String_inj (a b : Z) :
  Color_String a = Color_String b -> a = b.
Proof.
  assert (Hmixed : forall c d, 0 <= c <= 9 -> d < 0 \/ 9 < d -> Color_String c <> Color_String d).
  { intros c d Hc Hd. rewrite (Color_String_other d Hd).
    destruct (Color_String_named c Hc) as (k & -> & ->).
    unfold Sprintf_Color. cbn [String.append]. destruct k; discriminate. }
  assert (Hother : forall c d, c < 0 \/ 9 < c -> d < 0 \/ 9 < d ->
                               Color_String c = Color_String d -> c = d).
  { intros c d Hc Hd. rewrite (Color_String_other c Hc), (Color_String_other d Hd).
    unfold Sprintf_Color. cbn [String.append]. intros [= H].
    apply append_cancel_r in H; [| reflexivity]. now apply string_of_int_inj. }
  destruct (Z_le_gt_dec 0 a) as [Ha0 |]; [destruct (Z_le_gt_dec a 9) as [Ha9 |] |];
    (destruct (Z_le_gt_dec 0 b) as [Hb0 |]; [destruct (Z_le_gt_dec b 9) as [Hb9 |] |]);
    intros H.
  - destruct (Color_String_named a (conj Ha0 Ha9)) as (k1 & -> & Hk1).
    destruct (Color_String_named b (conj Hb0 Hb9)) as (k2 & -> & Hk2).
    rewrite Hk1, Hk2 in H.
    destruct k1, k2; try reflexivity; discriminate H.
  - exfalso. apply (Hmixed a b); [lia | lia | exact H].
  - exfalso. apply (Hmixed a b); [lia | lia | exact H].
  - exfalso. symmetry in H. apply (Hmixed b a); [lia | lia | exact H].
  - apply Hother; [lia | lia | exact H].
  - apply Hother; [lia | lia | exact H].
  - exfalso. symmetry in H. apply (Hmixed b a); [lia | lia | exact H].
  - apply Hother; [lia | lia | exact H].
  - apply Hother; [lia | lia | exact H].
Qed.

(** X16. Distinct values have distinct texts: two different integers, named
    constants or not, never get the same [String]. *)
Theorem Color_String_distinct (a b : Z) :
  a <> b -> Color_String a <> Color_String b.
Proof.
  intros Hab H. apply Hab. now apply Color_String_inj.
Qed.

Lemma Color_String_distinct_witness :
  Color_String (Color_value Blue) <> Color_String (Color_value LightBlue)
  /\ Color_String 10 <> Color_String (-10).
Proof.
  split; apply Color_String_distinct; cbn; lia.
Defined.
